(** * mongkok: the web research engine ([src/modules/web_browser.py])

    A shallow embedding of the [WebBrowser] class: URL safety validation,
    the search dispatcher with its retry loop and cache, the page fetcher
    with its snapshot cache, and the aggregation loops built on them.

    Python values are modelled as follows.
    - [str] is [string], holding the UTF-8 encoding of the text: a
      character is one to four bytes, and [PyStr.chars] splits a string
      into its characters; lengths, slices and whitespace are taken on
      characters, as Python takes them.
    - [int] is [Z]; slices [l[:n]] follow Python for negative [n] too.
    - the dictionaries returned to callers have a fixed set of possible
      keys and are records whose optional keys are [option] fields; the
      two caches are [gmap string _].
    - the instance attributes set once by [__init__] form the record
      [WebBrowser]; the attributes mutated afterwards (the two caches) and
      the log of effects form the record [Store], threaded explicitly.
    - an [await]ed HTTP GET asks an oracle for its outcome and appends an
      event to the log; [asyncio.sleep] appends its duration.
    - the standard and third-party libraries the module calls
      ([urllib.parse], [ipaddress], the HTML parser behind
      [BeautifulSoup]) and the case mapping of the Unicode database
      behind [str.lower] are interfaces (type classes); every theorem
      holds for all their implementations, and small reference instances
      are given for the examples. *)

From Stdlib Require Import ZArith QArith Ascii String List Bool Lia.
From Stdlib Require Import DecimalString.
From stdpp Require Import gmap strings list.

Local Open Scope string_scope.
Local Open Scope Z_scope.

(** ** Python string operations used by the module *)

Module PyStr.

(** [s.lower()] follows the case mapping of the Unicode character
    database, which is not spelled out here: it is an interface. *)
Class Unicode := {
  lower : string -> string;
}.

(** What [s.lower()] does on ASCII text. *)
Definition lower_char (c : ascii) : ascii :=
  let n := nat_of_ascii c in
  if ((65 <=? n) && (n <=? 90))%nat then ascii_of_nat (n + 32) else c.

Fixpoint ascii_lower (s : string) : string :=
  match s with
  | EmptyString => EmptyString
  | String c r => String (lower_char c) (ascii_lower r)
  end.

(** A byte that continues a character: [10xxxxxx]. *)
Definition is_continuation (c : ascii) : bool :=
  let n := nat_of_ascii c in ((128 <=? n) && (n <? 192))%nat.

Definition continues (s : string) : bool :=
  match s with
  | EmptyString => false
  | String c _ => is_continuation c
  end.

(** The characters of a string, each with all its bytes. *)
Fixpoint chars (s : string) : list string :=
  match s with
  | EmptyString => []
  | String c r =>
      match chars r with
      | ch :: rest =>
          if continues ch then String c ch :: rest
          else String c EmptyString :: ch :: rest
      | [] => [String c EmptyString]
      end
  end.

(** The string of a list of characters. *)
Definition unchars (l : list string) : string := String.concat "" l.

(** [len(s)] *)
Definition len (s : string) : nat := length (chars s).

(** [s.startswith(p)] *)
Definition startswith (p s : string) : bool := String.prefix p s.

(** [sub in s] *)
Fixpoint contains (sub s : string) : bool :=
  String.prefix sub s ||
  match s with
  | EmptyString => false
  | String _ r => contains sub r
  end.

(** [s.replace(a, b)] for one-character [a] and [b] *)
Fixpoint replace_char (a b : ascii) (s : string) : string :=
  match s with
  | EmptyString => EmptyString
  | String c r =>
      String (if Ascii.eqb c a then b else c) (replace_char a b r)
  end.

(** [c in s] for a character [c] *)
Fixpoint has_char (c : ascii) (s : string) : bool :=
  match s with
  | EmptyString => false
  | String d r => Ascii.eqb c d || has_char c r
  end.

(** [s.partition(c)]: the text before the first [c], whether [c] was
    found, and the text after it. *)
Fixpoint partition (c : ascii) (s : string) : string * bool * string :=
  match s with
  | EmptyString => (EmptyString, false, EmptyString)
  | String d r =>
      if Ascii.eqb c d then (EmptyString, true, r)
      else let '(h, found, t) := partition c r in (String d h, found, t)
  end.

(** [s.rpartition(c)]: split at the last [c]; when [c] is absent the
    whole string is the third component. *)
Fixpoint rpartition (c : ascii) (s : string) : string * bool * string :=
  match s with
  | EmptyString => (EmptyString, false, EmptyString)
  | String d r =>
      let '(h, found, t) := rpartition c r in
      if found then (String d h, true, t)
      else if Ascii.eqb c d then (EmptyString, true, r)
      else (EmptyString, false, String d t)
  end.

Definition of_codes (l : list nat) : string :=
  string_of_list_ascii (List.map ascii_of_nat l).

(** The characters that [str.isspace], [str.strip], [str.split] and the
    regular expression class [\s] take for whitespace: U+0009 to U+000D,
    U+001C to U+0020, U+0085, U+00A0, U+1680, U+2000 to U+200A, U+2028,
    U+2029, U+202F, U+205F and U+3000. *)
Definition whitespace : list string :=
  List.map of_codes
    [ [9]; [10]; [11]; [12]; [13]; [28]; [29]; [30]; [31]; [32];
      [194; 133]; [194; 160]; [225; 154; 128];
      [226; 128; 128]; [226; 128; 129]; [226; 128; 130]; [226; 128; 131];
      [226; 128; 132]; [226; 128; 133]; [226; 128; 134]; [226; 128; 135];
      [226; 128; 136]; [226; 128; 137]; [226; 128; 138];
      [226; 128; 168]; [226; 128; 169]; [226; 128; 175]; [226; 129; 159];
      [227; 128; 128] ]%nat.

Definition is_space (ch : string) : bool := existsb (String.eqb ch) whitespace.

(** The characters left when the whitespace at the start is dropped. *)
Fixpoint drop_spaces (l : list string) : list string :=
  match l with
  | [] => []
  | ch :: r => if is_space ch then drop_spaces r else l
  end.

Definition lstrip (s : string) : string := unchars (drop_spaces (chars s)).

Definition rstrip (s : string) : string :=
  unchars (rev (drop_spaces (rev (chars s)))).

(** [s.strip()] *)
Definition strip (s : string) : string :=
  unchars (rev (drop_spaces (rev (drop_spaces (chars s))))).

(** [sep.join(parts)] *)
Definition join (sep : string) (parts : list string) : string :=
  String.concat sep parts.

(** [s[:n]] for [0 <= n] *)
Definition take (n : nat) (s : string) : string := unchars (firstn n (chars s)).

(** [s.split()] on runs of whitespace: the non-empty words of [s].  The
    accumulator [w] holds the characters of the current word. *)
Fixpoint words_aux (w : string) (l : list string) : list string :=
  match l with
  | [] => if String.eqb w "" then [] else [w]
  | ch :: r =>
      if is_space ch
      then (if String.eqb w "" then words_aux "" r else w :: words_aux "" r)
      else words_aux (w ++ ch) r
  end.

Definition words (s : string) : list string := words_aux "" (chars s).

End PyStr.

(** ** Python slices and small dictionaries *)

(** [d.get(key)] on a dictionary given by its items. *)
Fixpoint dict_get {A} (key : string) (d : list (string * A)) : option A :=
  match d with
  | [] => None
  | (k, v) :: rest => if String.eqb k key then Some v else dict_get key rest
  end.

(** [l[:n]]: the first [n] elements, or all but the last [-n] when [n] is
    negative. *)
Definition slice_to {A} (n : Z) (l : list A) : list A :=
  if 0 <=? n then take (Z.to_nat n) l
  else take (length l - Z.to_nat (- n)) l.

(** ** The URL libraries: [urllib.parse] and [ipaddress] *)

(** The two components of [urlparse]'s result that the module reads. *)
Record ParseResult := {
  scheme : string;
  netloc : string;
}.

(** [ParseResult.hostname]: the part of [netloc] after the user
    information and before the port, without brackets, lower-cased;
    [None] when that part is empty. *)
Definition hostname {unicode : PyStr.Unicode} (p : ParseResult)
    : option string :=
  let '(_, _, hostinfo) := PyStr.rpartition "@" (netloc p) in
  let '(_, have_open_br, bracketed) := PyStr.partition "[" hostinfo in
  let host :=
    if have_open_br then fst (fst (PyStr.partition "]" bracketed))
    else fst (fst (PyStr.partition ":" hostinfo)) in
  if String.eqb host "" then None
  else
    let '(h, percent, zone) := PyStr.partition "%" host in
    Some (PyStr.lower h ++ (if percent then "%" else "") ++ zone)%string.

(** What the module asks of an [ipaddress] object. *)
Record IPAddress := {
  is_private : bool;
  is_loopback : bool;
  is_link_local : bool;
}.

(** An exception that a [try] block of the module can see. *)
Inductive exn :=
| AsyncioTimeout
| Exception (msg : string).

Inductive result (A : Type) :=
| Ok (a : A)
| Raise (e : exn).
Arguments Ok {A} a.
Arguments Raise {A} e.

(** The library functions.  For [urlparse] and [ip_address], whose
    [ValueError] the module catches where it calls them, [None] is that
    exception; [urljoin] is called in the open, so what it raises is
    kept. *)
Class UrlLibrary := {
  urlparse : string -> option ParseResult;
  ip_address : string -> option IPAddress;
  urljoin : string -> string -> result string;
}.

(** ** [_is_safe_url] *)

Section SafeUrl.
Context {unicode : PyStr.Unicode} {urls : UrlLibrary}.

Definition _is_safe_url (url : string) : bool :=
  match urlparse url with
  | None => false
  | Some parsed =>
      if String.eqb (scheme parsed) "" || String.eqb (netloc parsed) ""
      then false
      else if negb (bool_decide (scheme parsed ∈ ["http"; "https"]))
      then false
      else if bool_decide
                (hostname parsed ∈
                   [Some "localhost"; Some "127.0.0.1"; Some "0.0.0.0";
                    Some "::1"])
      then false
      else
        match hostname parsed with
        | Some h =>
            match ip_address h with
            | Some ip =>
                if is_private ip || is_loopback ip || is_link_local ip
                then false else true
            | None => true
            end
        | None => true
        end
  end.

End SafeUrl.


(** ** Parsed documents: the part of [bs4] the module uses *)

(** A parsed document is a forest of text nodes and tags; the HTML parser
    gives tag and attribute names in lower case. *)
#[warnings="-register-all"]
Inductive node :=
| NavigableString (s : string)
| Tag (name : string) (attrs : list (string * string)) (contents : list node).

Definition soup := list node.

(** The parser behind [BeautifulSoup(html, 'html.parser')]. *)
Class HtmlLibrary := {
  BeautifulSoup : string -> soup;
}.

(** A tag found in a document, with the names and attributes of the tags
    around it, nearest first: selectors look at them. *)
Record element := {
  el_parents : list (string * list (string * string));
  el_name : string;
  el_attrs : list (string * string);
  el_contents : list node;
}.

(** [tag.get(key)] *)
Definition get_attr (key : string) (attrs : list (string * string))
    : option string :=
  dict_get key attrs.

(** The tags below a node, the node included, in document order. *)
Fixpoint node_elements (parents : list (string * list (string * string)))
    (n : node) : list element :=
  match n with
  | NavigableString _ => []
  | Tag name attrs contents =>
      {| el_parents := parents; el_name := name; el_attrs := attrs;
         el_contents := contents |}
      :: flat_map (node_elements ((name, attrs) :: parents)) contents
  end.

(** [soup.descendants] and [tag.descendants], tags only. *)
Definition soup_elements (doc : soup) : list element :=
  flat_map (node_elements []) doc.

Definition descendants (e : element) : list element :=
  flat_map (node_elements ((el_name e, el_attrs e) :: el_parents e))
           (el_contents e).

(** A compound selector [tag], [.class] or [tag.class]; a selector is a
    sequence of them joined by the descendant combinator. *)
Record compound := {
  sel_tag : option string;
  sel_class : option string;
}.

Definition selector := list compound.

Definition by_tag (t : string) : compound :=
  {| sel_tag := Some t; sel_class := None |}.
Definition by_class (c : string) : compound :=
  {| sel_tag := None; sel_class := Some c |}.
Definition by_tag_class (t c : string) : compound :=
  {| sel_tag := Some t; sel_class := Some c |}.

(** The [class] attribute is a whitespace-separated list. *)
Definition classes (attrs : list (string * string)) : list string :=
  match get_attr "class" attrs with
  | Some v => PyStr.words v
  | None => []
  end.

Definition matches_compound (c : compound) (name : string)
    (attrs : list (string * string)) : bool :=
  match sel_tag c with
  | Some t => String.eqb t name
  | None => true
  end &&
  match sel_class c with
  | Some cl => bool_decide (cl ∈ classes attrs)
  | None => true
  end.

(** The compounds left of the subject, innermost first, are matched by
    tags around it, going outwards. *)
Fixpoint matches_ancestors (inner_first : list compound)
    (parents : list (string * list (string * string))) : bool :=
  match inner_first with
  | [] => true
  | c :: rest =>
      match parents with
      | [] => false
      | (name, attrs) :: outer =>
          if matches_compound c name attrs
          then matches_ancestors rest outer
          else matches_ancestors inner_first outer
      end
  end.

Definition matches (sel : selector) (e : element) : bool :=
  match rev sel with
  | [] => false
  | subject :: inner_first =>
      matches_compound subject (el_name e) (el_attrs e)
      && matches_ancestors inner_first (el_parents e)
  end.

(** [soup.select(sel)], [tag.select(sel)] and [tag.select_one(sel)] *)
Definition soup_select (sel : selector) (doc : soup) : list element :=
  List.filter (matches sel) (soup_elements doc).

Definition select (sel : selector) (e : element) : list element :=
  List.filter (matches sel) (descendants e).

Definition select_one (sel : selector) (e : element) : option element :=
  head (select sel e).

(** [soup.find_all('a', href=True)] *)
Definition find_all_a_href (doc : soup) : list element :=
  List.filter
    (fun e => String.eqb (el_name e) "a" && bool_decide (is_Some (get_attr "href" (el_attrs e))))
    (soup_elements doc).

(** The strings below a node, in document order. *)
Fixpoint node_strings (n : node) : list string :=
  match n with
  | NavigableString s => [s]
  | Tag _ _ contents => flat_map node_strings contents
  end.

(** [get_text(separator=sep, strip=True)]: every string stripped, the
    empty ones dropped, the rest joined by [sep]. *)
Definition get_text (sep : string) (doc : list node) : string :=
  PyStr.join sep
    (List.filter (fun s => negb (String.eqb s ""))
       (List.map PyStr.strip (flat_map node_strings doc))).

(** [for t in soup(names): t.decompose()]: every tag with one of the
    names is removed from the document, with all it contains. *)
Fixpoint decompose (names : list string) (n : node) : list node :=
  match n with
  | NavigableString _ => [n]
  | Tag name attrs contents =>
      if bool_decide (name ∈ names) then []
      else [Tag name attrs (flat_map (decompose names) contents)]
  end.

Definition decompose_all (names : list string) (doc : soup) : soup :=
  flat_map (decompose names) doc.

(** ** The dictionaries the module builds *)

(** One search hit: keys [title], [url], [description], [source]. *)
Record SearchResult := {
  title : string;
  url : string;
  description : string;
  source : string;
}.

(** What [search] returns.  [success] is always present; a key that the
    returned dictionary lacks is [None]. *)
Record SearchResponse := {
  s_success : bool;
  s_error : option string;
  s_reason : option string;
  s_results : option (list SearchResult);
  s_query : option string;
  s_engine : option string;
  s_cached : option bool;
}.

(** The keys of a returned [search] dictionary. *)
Definition key_if {A} (key : string) (field : option A) : gset string :=
  match field with
  | Some _ => {[key]}
  | None => ∅
  end.

Definition search_keys (r : SearchResponse) : gset string :=
  {["success"]}
  ∪ key_if "error" (s_error r) ∪ key_if "reason" (s_reason r)
  ∪ key_if "results" (s_results r) ∪ key_if "query" (s_query r)
  ∪ key_if "engine" (s_engine r) ∪ key_if "cached" (s_cached r).

(** One extracted link: keys [text], [url]. *)
Record Link := {
  link_text : string;
  link_url : string;
}.

(** The snapshot [data] that [fetch_page] builds and stores in
    [_visited_urls]; [text] and [links] are set under a condition. *)
Record PageData := {
  d_url : string;
  d_status : Z;
  d_content_length : Z;
  d_text : option string;
  d_links : option (list Link);
}.

(** What [fetch_page] returns. *)
Record PageResponse := {
  p_success : bool;
  p_error : option string;
  p_url : option string;
  p_status : option Z;
  p_content_length : option Z;
  p_text : option string;
  p_links : option (list Link);
  p_cached : option bool;
}.

(** One entry of [collected_info]. *)
Record CollectedInfo := {
  source_title : string;
  source_url : string;
  source_description : string;
  content : string;
  content_length : Z;
}.

(** What [collect_information] returns: its own success dictionary, or a
    failure dictionary, which is its own or the one [search] returned. *)
Inductive CollectResponse :=
| CollectFailure (r : SearchResponse)
| CollectSuccess (query summary : string) (sources : list string)
    (detailed_info : list CollectedInfo) (collection_time : string).

(** [result.get('success')] *)
Definition c_success (r : CollectResponse) : bool :=
  match r with
  | CollectFailure f => s_success f
  | CollectSuccess _ _ _ _ _ => true
  end.

(** [r.get('detailed_info', [])] *)
Definition c_detailed_info (r : CollectResponse) : list CollectedInfo :=
  match r with
  | CollectFailure _ => []
  | CollectSuccess _ _ _ info _ => info
  end.

(** What [search_and_research] returns. *)
Record ResearchResponse := {
  r_success : bool;
  r_error : option string;
  r_original_query : option string;
  r_iterations : option Z;
  r_results : option (list CollectResponse);
  r_total_sources : option Z;
}.

(** ** Effects *)

(** What one HTTP GET, with reading and decoding the body, comes to: a
    response, [asyncio.TimeoutError], or another exception with its
    message. *)
Inductive http_outcome :=
| Response (status : Z) (html : string)
| TimeoutError
| ClientError (msg : string).

(** The observable effects, oldest first: the GETs issued and the
    suspensions [asyncio.sleep(seconds)]. *)
Inductive event :=
| Get (target : string)
| Sleep (seconds : Q).

(** The world outside: the outcome of a GET may depend on everything that
    happened before it; so may the clock. *)
Class World := {
  http_get : list event -> string -> http_outcome;
  strftime : list event -> string;
}.

(** [SecurityManager]: the two settings [check_content_safety] reads. *)
Record SecurityManager := {
  content_filter_enabled : bool;
  _blocked_keywords : list string;
}.

(** The attributes of a [WebBrowser] that [__init__] sets for good. *)
Record WebBrowser := {
  _enabled : bool;
  _timeout : Z;
  _max_retries : Z;
  _security : SecurityManager;
}.

(** The attributes that change, and the log of effects. *)
Record Store := {
  _visited_urls : gmap string PageData;
  _search_cache : gmap string (list SearchResult);
  trace : list event;
}.

(** The configuration keys [__init__] reads; an absent key is [None]. *)
Record Config := {
  capabilities_web_browsing : option bool;
  advanced_timeout_seconds : option Z;
  advanced_max_retries : option Z;
  security_content_filter_enabled : option bool;
  security_blocked_keywords : option (list string);
}.

(** [WebBrowser.__init__] with [SecurityManager.__init__] *)
Definition new_browser (config : Config) : WebBrowser :=
  {| _enabled := default true (capabilities_web_browsing config);
     _timeout := default 30 (advanced_timeout_seconds config);
     _max_retries := default 3 (advanced_max_retries config);
     _security :=
       {| content_filter_enabled :=
            default false (security_content_filter_enabled config);
          _blocked_keywords :=
            default [] (security_blocked_keywords config) |} |}.

Definition new_store : Store :=
  {| _visited_urls := ∅; _search_cache := ∅; trace := [] |}.

(** [SEARCH_ENGINES]: the template up to its [{query}] placeholder, which
    ends each of them. *)
Definition SEARCH_ENGINES : list (string * string) :=
  [ ("google", "https://www.google.com/search?q=");
    ("bing", "https://www.bing.com/search?q=");
    ("baidu", "https://www.baidu.com/s?wd=");
    ("duckduckgo", "https://duckduckgo.com/?q=") ].

(** The loop of [check_content_safety] over the blocked keywords: the
    first one that occurs in the lower-cased content. *)
Fixpoint first_blocked {unicode : PyStr.Unicode} (keywords : list string)
    (content_lower : string) : option string :=
  match keywords with
  | [] => None
  | keyword :: rest =>
      if PyStr.contains (PyStr.lower keyword) content_lower then Some keyword
      else first_blocked rest content_lower
  end.

(** [check_content_safety]: the verdict with its reason. *)
Definition check_content_safety {unicode : PyStr.Unicode}
    (sec : SecurityManager) (content : string) : bool * string :=
  if negb (content_filter_enabled sec) then (true, "")
  else
    match first_blocked (_blocked_keywords sec) (PyStr.lower content) with
    | Some keyword => (false, "内容包含违禁关键词: " ++ keyword)%string
    | None => (true, "")
    end.

(** ** The result parsers *)

(** [a or b] on two optional tags: a tag is always true. *)
Definition or_else {A} (a b : option A) : option A :=
  match a with
  | Some _ => a
  | None => b
  end.

(** [tag.get_text(strip=True)] *)
Definition tag_text (e : element) : string := get_text "" (el_contents e).

(** [tag.get('href', '')] *)
Definition href_of (e : element) : string :=
  default "" (get_attr "href" (el_attrs e)).

(** [description_elem.get_text(strip=True) if description_elem else ''] *)
Definition text_or_empty (e : option element) : string :=
  match e with
  | Some d => tag_text d
  | None => ""
  end.

(** The body of the loop of [_parse_baidu_results]: [None] is [continue]. *)
Definition baidu_item (item : element) : option SearchResult :=
  let title_elem :=
    or_else (select_one [by_class "t"; by_tag "a"] item)
            (select_one [by_tag "h3"; by_tag "a"] item) in
  match title_elem with
  | None => None
  | Some title_elem =>
      let description_elem :=
        or_else (select_one [by_class "c-abstract"] item)
                (select_one [by_class "c-span-last"] item) in
      Some {| title := tag_text title_elem;
              url := href_of title_elem;
              description := text_or_empty description_elem;
              source := "baidu" |}
  end.

Definition _parse_baidu_results (doc : soup) (max_results : Z)
    : list SearchResult :=
  omap baidu_item (slice_to max_results (soup_select [by_class "result"] doc)).

Definition google_item (item : element) : option SearchResult :=
  let title_elem := select_one [by_tag "h3"] item in
  let link_elem := select_one [by_tag "a"] item in
  let description_elem := select_one [by_class "VwiC3b"] item in
  match title_elem, link_elem with
  | Some title_elem, Some link_elem =>
      Some {| title := tag_text title_elem;
              url := href_of link_elem;
              description := text_or_empty description_elem;
              source := "google" |}
  | _, _ => None
  end.

Definition _parse_google_results (doc : soup) (max_results : Z)
    : list SearchResult :=
  omap google_item (slice_to max_results (soup_select [by_tag_class "div" "g"] doc)).

Definition bing_item (item : element) : option SearchResult :=
  let title_elem := select_one [by_tag "h2"; by_tag "a"] item in
  let description_elem := select_one [by_class "b_caption"; by_tag "p"] item in
  match title_elem with
  | None => None
  | Some title_elem =>
      Some {| title := tag_text title_elem;
              url := href_of title_elem;
              description := text_or_empty description_elem;
              source := "bing" |}
  end.

Definition _parse_bing_results (doc : soup) (max_results : Z)
    : list SearchResult :=
  omap bing_item (slice_to max_results (soup_select [by_class "b_algo"] doc)).

(** The loop of [_parse_generic_results] over the links still to visit,
    with the results so far; it stops early once [max_results] is reached
    by an append. *)
Fixpoint generic_loop (max_results : Z) (links : list element)
    (results : list SearchResult) : list SearchResult :=
  match links with
  | [] => results
  | link :: rest =>
      let href := href_of link in
      if PyStr.startswith "http" href
         && negb (existsb (fun excluded => PyStr.contains excluded href)
                          ["google.com"; "bing.com"; "baidu.com"])
      then
        let text := tag_text link in
        if negb (String.eqb text "") && (3 <? Z.of_nat (PyStr.len text))
        then
          let results' :=
            (results ++ [ {| title := text; url := href; description := "";
                             source := "generic" |} ])%list in
          if max_results <=? Z.of_nat (length results') then results'
          else generic_loop max_results rest results'
        else generic_loop max_results rest results
      else generic_loop max_results rest results
  end.

Definition _parse_generic_results (doc : soup) (max_results : Z)
    : list SearchResult :=
  generic_loop max_results (slice_to (max_results * 2) (find_all_a_href doc)) [].

(** The engine dispatch inside [_fetch_search_results]. *)
Definition parse_results (engine : string) (doc : soup) (max_results : Z)
    : list SearchResult :=
  if String.eqb engine "baidu" then _parse_baidu_results doc max_results
  else if String.eqb engine "google" then _parse_google_results doc max_results
  else if String.eqb engine "bing" then _parse_bing_results doc max_results
  else _parse_generic_results doc max_results.

(** ** Small helpers for the effects *)

Definition nl : string := String (ascii_of_nat 10) EmptyString.

(** [str(n)] *)
Definition str_of_Z (n : Z) : string := NilZero.string_of_int (Z.to_int n).

(** [range(n)] *)
Definition range (n : Z) : list Z := List.map Z.of_nat (seq 0 (Z.to_nat n)).

(** Appending an event to the log. *)
Definition emit (e : event) (st : Store) : Store :=
  {| _visited_urls := _visited_urls st;
     _search_cache := _search_cache st;
     trace := (trace st ++ [e])%list |}.

(** [await asyncio.sleep(seconds)] *)
Definition sleep (seconds : Q) (st : Store) : Store := emit (Sleep seconds) st.

(** [self._search_cache[key] = results] *)
Definition cache_search (key : string) (results : list SearchResult)
    (st : Store) : Store :=
  {| _visited_urls := _visited_urls st;
     _search_cache := <[key := results]> (_search_cache st);
     trace := trace st |}.

(** [self._visited_urls[url] = data] *)
Definition cache_page (key : string) (data : PageData) (st : Store) : Store :=
  {| _visited_urls := <[key := data]> (_visited_urls st);
     _search_cache := _search_cache st;
     trace := trace st |}.

(** ** The search dispatcher *)

Section Search.
Context {unicode : PyStr.Unicode} {html_reader : HtmlLibrary} {world : World}.

(** [async with session.get(url) as response]: the GET is logged, and
    its outcome is a response or a raised exception. *)
Definition session_get (target : string) (st : Store)
    : result (Z * string) * Store :=
  (match http_get (trace st) target with
   | Response status html => Ok (status, html)
   | TimeoutError => Raise AsyncioTimeout
   | ClientError msg => Raise (Exception msg)
   end,
   emit (Get target) st).

(** What the [try] block of one attempt does to the loop. *)
Inductive attempt_step :=
| Continue (results : list SearchResult)
| Break (results : list SearchResult).

(** The [try] block of one attempt of [_fetch_search_results], given the
    current value of [results]. *)
Definition attempt_try (target : string) (max_results : Z) (engine : string)
    (results : list SearchResult) (st : Store) : result attempt_step * Store :=
  match session_get target st with
  | (Raise e, st1) => (Raise e, st1)
  | (Ok (status, html), st1) =>
      if negb (status =? 200) then (Ok (Continue results), st1)
      else
        let doc := BeautifulSoup html in
        let results := parse_results engine doc max_results in
        match results with
        | [] => (Ok (Continue results), st1)
        | _ :: _ => (Ok (Break results), st1)
        end
  end.

(** The loop of [_fetch_search_results] over the attempt numbers still to
    run.  Every exception of an attempt is caught here. *)
Fixpoint fetch_loop (self : WebBrowser) (target : string) (max_results : Z)
    (engine : string) (attempts : list Z) (results : list SearchResult)
    (st : Store) : list SearchResult * Store :=
  match attempts with
  | [] => (results, st)
  | attempt :: rest =>
      match attempt_try target max_results engine results st with
      | (Ok (Break results), st1) => (results, st1)
      | (Ok (Continue results), st1) =>
          fetch_loop self target max_results engine rest results st1
      | (Raise _, st1) =>
          let st2 :=
            if attempt <? _max_retries self - 1
            then sleep (inject_Z (1 * (attempt + 1))) st1
            else st1 in
          fetch_loop self target max_results engine rest results st2
      end
  end.

Definition _fetch_search_results (self : WebBrowser) (target : string)
    (max_results : Z) (engine : string) (st : Store)
    : list SearchResult * Store :=
  let '(results, st') :=
    fetch_loop self target max_results engine (range (_max_retries self)) [] st in
  (slice_to max_results results, st').

(** A failure dictionary with [error] and, possibly, [reason]. *)
Definition search_failure (error : string) (reason : option string)
    : SearchResponse :=
  {| s_success := false; s_error := Some error; s_reason := reason;
     s_results := None; s_query := None; s_engine := None;
     s_cached := None |}.

(** [search].  Its [try] block builds the URL, awaits
    [_fetch_search_results] and stores the result; none of these steps
    raises an [Exception], those of the attempts being caught inside
    [_fetch_search_results], so the [except] clause that would return
    the error [搜索失败] has no case here. *)
Definition search (self : WebBrowser) (query engine : string)
    (max_results : Z) (use_cache : bool) (st : Store)
    : SearchResponse * Store :=
  if negb (_enabled self)
  then (search_failure "网络浏览功能未启用" None, st)
  else
    let '(allowed, reason) := check_content_safety (_security self) query in
    if negb allowed
    then (search_failure "内容安全检查失败" (Some reason), st)
    else
      let cache_key := (engine ++ ":" ++ query)%string in
      match (if use_cache then _search_cache st !! cache_key else None) with
      | Some cached =>
          ({| s_success := true; s_error := None; s_reason := None;
              s_results := Some cached; s_query := None; s_engine := None;
              s_cached := Some true |},
           st)
      | None =>
          let engine :=
            match dict_get engine SEARCH_ENGINES with
            | Some _ => engine
            | None => "baidu"
            end in
          let search_url :=
            (default "" (dict_get engine SEARCH_ENGINES)
             ++ PyStr.replace_char " " "+" query)%string in
          let '(results, st1) :=
            _fetch_search_results self search_url max_results engine st in
          let st2 := cache_search cache_key results st1 in
          ({| s_success := true; s_error := None; s_reason := None;
              s_results := Some results; s_query := Some query;
              s_engine := Some engine; s_cached := None |},
           st2)
      end.

End Search.

(** ** The page fetcher *)

(** The rest of the whitespace run at the start of the characters [r]
    after its last newline, if it has a newline. *)
Fixpoint blank_tail (r : list string) : option (list string) :=
  match r with
  | [] => None
  | ch :: r' =>
      if PyStr.is_space ch then
        match blank_tail r' with
        | Some t => Some t
        | None => if String.eqb ch nl then Some r' else None
        end
      else None
  end.

Fixpoint collapse_blank (fuel : nat) (s : list string) : list string :=
  match fuel, s with
  | S fuel', ch :: r =>
      if String.eqb ch nl then
        match blank_tail r with
        | Some t => nl :: nl :: collapse_blank fuel' t
        | None => ch :: collapse_blank fuel' r
        end
      else ch :: collapse_blank fuel' r
  | _, _ => s
  end.

(** [re.sub(r'\n\s*\n', '\n\n', text)]: a newline, the longest run of
    whitespace after it that ends in a newline, replaced by two newlines,
    from left to right. *)
Definition collapse_blank_lines (text : string) : string :=
  PyStr.unchars (collapse_blank (PyStr.len text) (PyStr.chars text)).

Definition page_failure (error : string) (target : option string)
    : PageResponse :=
  {| p_success := false; p_error := Some error; p_url := target;
     p_status := None; p_content_length := None; p_text := None;
     p_links := None; p_cached := None |}.

(** [{'success': True, **data}] *)
Definition page_success (data : PageData) : PageResponse :=
  {| p_success := true; p_error := None; p_url := Some (d_url data);
     p_status := Some (d_status data);
     p_content_length := Some (d_content_length data);
     p_text := d_text data; p_links := d_links data; p_cached := None |}.

(** [{'success': True, 'url': url, **data, 'cached': True}] *)
Definition page_cached (data : PageData) : PageResponse :=
  {| p_success := true; p_error := None; p_url := Some (d_url data);
     p_status := Some (d_status data);
     p_content_length := Some (d_content_length data);
     p_text := d_text data; p_links := d_links data;
     p_cached := Some true |}.

Section Fetch.
Context {unicode : PyStr.Unicode} {urls : UrlLibrary}
        {html_reader : HtmlLibrary} {world : World}.

(** The loop that fills [links]: every anchor with an [href] still in
    the document, resolved against the page URL, kept if it is safe. *)
Fixpoint extract_links_loop (base : string) (anchors : list element)
    : result (list Link) :=
  match anchors with
  | [] => Ok []
  | link :: rest =>
      let href := href_of link in
      match urljoin base href with
      | Raise e => Raise e
      | Ok full_url =>
          match extract_links_loop base rest with
          | Raise e => Raise e
          | Ok links =>
              Ok (if _is_safe_url full_url
                  then {| link_text := tag_text link; link_url := full_url |}
                       :: links
                  else links)
          end
      end
  end.

(** The part of [fetch_page] after a 200 response: [data] is filled.
    Extracting the text removes tags from [soup] itself, and the links
    are collected from what is left; an exception of [urljoin] leaves
    the block. *)
Definition snapshot (target : string) (status : Z) (html : string)
    (extract_text extract_links : bool) : result PageData :=
  let doc := BeautifulSoup html in
  let doc :=
    if extract_text
    then decompose_all ["script"; "style"; "nav"; "footer"; "header"] doc
    else doc in
  let text :=
    if extract_text
    then Some (collapse_blank_lines (get_text nl doc))
    else None in
  let data links :=
    {| d_url := target;
       d_status := status;
       d_content_length := Z.of_nat (PyStr.len html);
       d_text := text;
       d_links := links |} in
  if extract_links then
    match extract_links_loop target (find_all_a_href doc) with
    | Ok links => Ok (data (Some links))
    | Raise e => Raise e
    end
  else Ok (data None).

(** The two [except] clauses of [fetch_page]. *)
Definition page_exception (target : string) (e : exn) : PageResponse :=
  match e with
  | AsyncioTimeout => page_failure "请求超时" (Some target)
  | Exception msg => page_failure msg (Some target)
  end.

Definition fetch_page (self : WebBrowser) (target : string)
    (extract_text extract_links use_cache : bool) (st : Store)
    : PageResponse * Store :=
  if negb (_enabled self)
  then (page_failure "网络浏览功能未启用" None, st)
  else if negb (_is_safe_url target)
  then (page_failure "URL不安全或格式无效" None, st)
  else
    match (if use_cache then _visited_urls st !! target else None) with
    | Some data => (page_cached data, st)
    | None =>
        match session_get target st with
        | (Ok (status, html), st1) =>
            if negb (status =? 200)
            then (page_failure ("HTTP错误: " ++ str_of_Z status) (Some target),
                  st1)
            else
              match
                snapshot target status html extract_text extract_links
              with
              | Ok data => (page_success data, cache_page target data st1)
              | Raise e => (page_exception target e, st1)
              end
        | (Raise e, st1) => (page_exception target e, st1)
        end
    end.

End Fetch.

(** ** The aggregator *)

(** A comma after every third digit, on the digits in reverse order. *)
Fixpoint group_reversed (i : nat) (digits : list ascii) : list ascii :=
  match digits with
  | [] => []
  | c :: rest =>
      match rest with
      | [] => [c]
      | _ :: _ =>
          if (i =? 2)%nat then c :: ","%char :: group_reversed 0 rest
          else c :: group_reversed (S i) rest
      end
  end.

(** [f"{n:,}"] for [0 <= n] *)
Definition format_thousands (n : Z) : string :=
  string_of_list_ascii
    (rev (group_reversed 0 (rev (list_ascii_of_string (str_of_Z n))))).

(** The three lines that the loop of [_summarize_collected_info] appends
    for the [i]-th source. *)
Definition summary_entry (i : Z) (info : CollectedInfo) : list string :=
  let desc := PyStr.take 200 (source_description info) in
  [ str_of_Z i ++ ". **" ++ source_title info ++ "**";
    "   - URL: " ++ source_url info;
    "   - 描述: " ++ desc
      ++ (if (200 <=? Z.of_nat (PyStr.len desc))%Z then "..." else "") ]%string.

Fixpoint summary_entries (i : Z) (info_list : list CollectedInfo)
    : list string :=
  match info_list with
  | [] => []
  | info :: rest => (summary_entry i info ++ summary_entries (i + 1) rest)%list
  end.

Definition sum_Z (l : list Z) : Z := fold_right Z.add 0 l.

Definition _summarize_collected_info (info_list : list CollectedInfo)
    (query : string) : string :=
  match info_list with
  | [] => ("未找到关于 '" ++ query ++ "' 的相关信息。")%string
  | _ :: _ =>
      let total_length := sum_Z (List.map content_length info_list) in
      PyStr.join nl
        ([ "## 信息收集摘要";
           "**查询**: " ++ query;
           "**来源数量**: " ++ str_of_Z (Z.of_nat (length info_list));
           "";
           "### 主要信息来源:" ]%string
         ++ summary_entries 1 info_list
         ++ [ "";
              "### 统计信息";
              "- 总内容长度: " ++ format_thousands total_length ++ " 字符" ]%string)%list
  end.

Section Aggregate.
Context {unicode : PyStr.Unicode} {urls : UrlLibrary}
        {html_reader : HtmlLibrary} {world : World}.

(** The loop of [collect_information] over the search results to visit,
    with [collected_info] so far. *)
Fixpoint visit_results (self : WebBrowser) (todo : list SearchResult)
    (collected_info : list CollectedInfo) (st : Store)
    : list CollectedInfo * Store :=
  match todo with
  | [] => (collected_info, st)
  | result :: rest =>
      if String.eqb (url result) ""
      then visit_results self rest collected_info st
      else
        let '(page_result, st1) :=
          fetch_page self (url result) true false true st in
        let collected_info :=
          if p_success page_result
          then (collected_info ++
                [ {| source_title := title result;
                     source_url := url result;
                     source_description := description result;
                     content := default "" (p_text page_result);
                     content_length :=
                       default 0 (p_content_length page_result) |} ])%list
          else collected_info in
        let st2 := sleep (1 # 2) st1 in
        visit_results self rest collected_info st2
  end.

(** [collect_information].  Inside its [try] block only the subscript
    [search_result['results']] can raise, a [KeyError] when the key is
    absent; the [except] clause turns it into a failure dictionary. *)
Definition collect_information (self : WebBrowser) (query : string)
    (max_pages max_depth : Z) (st : Store) : CollectResponse * Store :=
  if negb (_enabled self)
  then (CollectFailure (search_failure "网络浏览功能未启用" None), st)
  else
    let '(search_result, st1) := search self query "baidu" max_pages true st in
    if negb (s_success search_result)
    then (CollectFailure search_result, st1)
    else
      match s_results search_result with
      | None =>
          (CollectFailure (search_failure "信息收集失败" (Some "'results'")),
           st1)
      | Some search_results =>
          let '(collected_info, st2) :=
            visit_results self (slice_to max_pages search_results) [] st1 in
          let summary := _summarize_collected_info collected_info query in
          (CollectSuccess query summary
             (List.map source_url collected_info) collected_info
             (strftime (trace st2)),
           st2)
      end.

(** The loop of [search_and_research] over the round numbers still to
    run, with [all_results] and [current_query]. *)
Fixpoint research_loop (self : WebBrowser) (query : string)
    (num_iterations : Z) (rounds : list Z) (all_results : list CollectResponse)
    (current_query : string) (st : Store) : list CollectResponse * Store :=
  match rounds with
  | [] => (all_results, st)
  | i :: rest =>
      let '(result, st1) := collect_information self current_query 3 1 st in
      if negb (c_success result) then (all_results, st1)
      else
        let all_results := (all_results ++ [result])%list in
        let current_query :=
          if i <? num_iterations - 1 then query else current_query in
        let st2 := sleep (inject_Z 1) st1 in
        research_loop self query num_iterations rest all_results
          current_query st2
  end.

Definition search_and_research (self : WebBrowser) (query : string)
    (num_iterations : Z) (st : Store) : ResearchResponse * Store :=
  if negb (_enabled self)
  then ({| r_success := false; r_error := Some "网络浏览功能未启用";
           r_original_query := None; r_iterations := None;
           r_results := None; r_total_sources := None |},
        st)
  else
    let '(all_results, st') :=
      research_loop self query num_iterations (range num_iterations) [] query
        st in
    ({| r_success := true; r_error := None;
        r_original_query := Some query;
        r_iterations := Some (Z.of_nat (length all_results));
        r_results := Some all_results;
        r_total_sources :=
          Some (sum_Z (List.map
                         (fun r => Z.of_nat (length (c_detailed_info r)))
                         all_results)) |},
     st').

End Aggregate.

(** ** Reference instances of the libraries

    They follow CPython's [urllib.parse.urlsplit] and
    [ipaddress.IPv4Address] on ASCII input, and are what the examples run
    on.  The theorems do not depend on them. *)

Module Reference.

Definition is_alpha (c : ascii) : bool :=
  let n := nat_of_ascii c in
  ((65 <=? n) && (n <=? 90) || (97 <=? n) && (n <=? 122))%nat.

Definition is_digit (c : ascii) : bool :=
  let n := nat_of_ascii c in ((48 <=? n) && (n <=? 57))%nat.

Definition is_scheme_char (c : ascii) : bool :=
  is_alpha c || is_digit c || PyStr.has_char c "+-.".

Fixpoint all_chars (p : ascii -> bool) (s : string) : bool :=
  match s with
  | EmptyString => true
  | String c r => p c && all_chars p r
  end.

Fixpoint remove_chars (p : ascii -> bool) (s : string) : string :=
  match s with
  | EmptyString => EmptyString
  | String c r => if p c then remove_chars p r else String c (remove_chars p r)
  end.

(** [url.lstrip(_WHATWG_C0_CONTROL_OR_SPACE)] *)
Fixpoint lstrip_c0 (s : string) : string :=
  match s with
  | EmptyString => EmptyString
  | String c r => if (nat_of_ascii c <=? 32)%nat then lstrip_c0 r else s
  end.

(** The scheme, lower-cased, and the rest; no scheme when the text before
    the first colon is empty, starts with no letter, or has a character
    that a scheme cannot have. *)
Definition split_scheme (u : string) : string * string :=
  let '(before, found, after) := PyStr.partition ":" u in
  match before with
  | String c _ =>
      if found && is_alpha c && all_chars is_scheme_char before
      then (PyStr.ascii_lower before, after)
      else ("", u)
  | EmptyString => ("", u)
  end.

(** The text up to the first of [/], [?] and [#]. *)
Fixpoint until_delim (s : string) : string :=
  match s with
  | EmptyString => EmptyString
  | String c r => if PyStr.has_char c "/?#" then EmptyString else String c (until_delim r)
  end.

Definition urlsplit (u : string) : option ParseResult :=
  let u := lstrip_c0 u in
  let u := remove_chars (fun c => bool_decide (nat_of_ascii c ∈ [9; 10; 13]%nat)) u in
  let '(sch, rest) := split_scheme u in
  let loc :=
    match rest with
    | String "/" (String "/" after) => until_delim after
    | _ => ""
    end in
  if xorb (PyStr.has_char "[" loc) (PyStr.has_char "]" loc)
  then None
  else Some {| scheme := sch; netloc := loc |}.

(** [s.split(c)] *)
Fixpoint split_on (c : ascii) (s : string) : list string :=
  match s with
  | EmptyString => [EmptyString]
  | String d r =>
      if Ascii.eqb c d then EmptyString :: split_on c r
      else
        match split_on c r with
        | [] => [String d EmptyString]
        | w :: ws => String d w :: ws
        end
  end.

Definition digit_value (c : ascii) : Z := Z.of_nat (nat_of_ascii c) - 48.

(** One decimal octet: one to three digits, no leading zero, at most 255. *)
Definition octet (s : string) : option Z :=
  let v := fold_left (fun acc c => 10 * acc + digit_value c) (list_ascii_of_string s) 0 in
  match s with
  | EmptyString => None
  | String c r =>
      if all_chars is_digit s && (String.length s <=? 3)%nat
         && negb (Ascii.eqb c "0" && negb (String.eqb r ""))
         && (v <=? 255)
      then Some v else None
  end.

(** The networks of [IPv4Address.is_private]. *)
Definition ipv4_private (a b c d : Z) : bool :=
  (a =? 0) || (a =? 10) || (a =? 127)
  || (a =? 169) && (b =? 254)
  || (a =? 172) && (16 <=? b) && (b <=? 31)
  || (a =? 192) && (b =? 0) && (c =? 0) && (d <=? 7)
  || (a =? 192) && (b =? 0) && (c =? 0) && (170 <=? d) && (d <=? 171)
  || (a =? 192) && (b =? 0) && (c =? 2)
  || (a =? 192) && (b =? 168)
  || (a =? 198) && (18 <=? b) && (b <=? 19)
  || (a =? 198) && (b =? 51) && (c =? 100)
  || (a =? 203) && (b =? 0) && (c =? 113)
  || (240 <=? a).

(** [ipaddress.ip_address] on dotted quads; every other text, IPv6
    included, is outside this reference instance and counts as no
    address. *)
Definition ipv4_address (s : string) : option IPAddress :=
  match List.map octet (split_on "." s) with
  | [Some a; Some b; Some c; Some d] =>
      Some {| is_private := ipv4_private a b c d;
              is_loopback := a =? 127;
              is_link_local := (a =? 169) && (b =? 254) |}
  | _ => None
  end.

(** [urljoin] for a reference that is an absolute URL or an absolute
    path; other references are appended to the base.  None of these
    makes [urljoin] raise. *)
Definition join_reference (base ref : string) : string :=
  if PyStr.contains "://" ref then ref
  else if PyStr.startswith "/" ref then
    match urlsplit base with
    | Some p => (scheme p ++ "://" ++ netloc p ++ ref)%string
    | None => ref
    end
  else (base ++ ref)%string.

Definition url_library : UrlLibrary :=
  {| urlparse := urlsplit; ip_address := ipv4_address;
     urljoin := fun base ref => Ok (join_reference base ref) |}.

(** [str.lower] on ASCII text, which is all that the examples lower. *)
Definition unicode : PyStr.Unicode := {| PyStr.lower := PyStr.ascii_lower |}.

End Reference.

(** ** Example pages and worlds *)

Module Demo.

Definition home_url : string := "https://example.com/".

Definition home_html : string :=
  "<nav><a href='https://example.com/about'>About</a></nav><p>Read <a href='https://example.org/more'>more</a></p>".

Definition home_doc : soup :=
  [ Tag "nav" []
      [ Tag "a" [("href", "https://example.com/about")]
          [NavigableString "About"] ];
    Tag "p" []
      [ NavigableString "Read ";
        Tag "a" [("href", "https://example.org/more")]
          [NavigableString "more"] ] ].

(** A result page in Baidu's markup, with two hits. *)
Definition hits_html : string :=
  "<div class='result'><h3 class='t'><a href='https://example.org/weather'>Weather today</a></h3><div class='c-abstract'>Sunny</div></div><div class='result'><h3><a href='https://example.net/forecast'>Forecast</a></h3></div>".

Definition hits_doc : soup :=
  [ Tag "div" [("class", "result")]
      [ Tag "h3" [("class", "t")]
          [ Tag "a" [("href", "https://example.org/weather")]
              [NavigableString "Weather today"] ];
        Tag "div" [("class", "c-abstract")] [NavigableString "Sunny"] ];
    Tag "div" [("class", "result")]
      [ Tag "h3" []
          [ Tag "a" [("href", "https://example.net/forecast")]
              [NavigableString "Forecast"] ] ] ].

(** A page with a link and none of Baidu's result blocks. *)
Definition plain_html : string :=
  "<p><a href='https://example.org/weather'>Weather today</a></p>".

Definition plain_doc : soup :=
  [ Tag "p" []
      [ Tag "a" [("href", "https://example.org/weather")]
          [NavigableString "Weather today"] ] ].

(** The HTML reader of the examples: it knows the three pages above;
    any other text reads as an empty document. *)
Definition read_html : HtmlLibrary :=
  {| BeautifulSoup := fun html =>
       default []
         (dict_get html
            [ (home_html, home_doc); (hits_html, hits_doc);
              (plain_html, plain_doc) ]) |}.

Definition clock : list event -> string := fun _ => "2024-05-01 12:00:00".

(** No network: every GET raises. *)
Definition offline : World :=
  {| http_get := fun _ _ => ClientError "Cannot connect to host";
     strftime := clock |}.

(** Every GET is answered 503. *)
Definition unavailable : World :=
  {| http_get := fun _ _ => Response 503 ""; strftime := clock |}.

(** Every GET is answered 200 with the same page. *)
Definition serving (html : string) : World :=
  {| http_get := fun _ _ => Response 200 html; strftime := clock |}.

(** A browser made from an empty configuration file. *)
Definition browser : WebBrowser :=
  new_browser
    {| capabilities_web_browsing := None; advanced_timeout_seconds := None;
       advanced_max_retries := None; security_content_filter_enabled := None;
       security_blocked_keywords := None |}.

End Demo.

(** ** Vocabulary of the statements *)

(** An outcome that is an exception for the [try] block around the GET. *)
Definition raises (o : http_outcome) : bool :=
  match o with
  | Response _ _ => false
  | TimeoutError | ClientError _ => true
  end.

(** The number of GETs in a log. *)
Definition gets (log : list event) : nat :=
  length (List.filter (fun e => match e with Get _ => true | Sleep _ => false end) log).

Section Vocabulary.
Context {unicode : PyStr.Unicode} {urls : UrlLibrary}
        {html_reader : HtmlLibrary} {world : World}.

(** The events that the retry loop may add after the history [before],
    when its next attempt has number [attempt], counted from 0: each
    attempt is one GET of [target]; an attempt that raised is followed
    by a suspension of [1 * (attempt + 1)] seconds when its number is
    below [_max_retries - 1], and by none otherwise; an attempt that got
    a response, whatever its status and whatever was parsed from it, is
    followed by no suspension. *)
Inductive retry_events (self : WebBrowser) (target : string)
    : list event -> Z -> list event -> Prop :=
| retry_stop before attempt :
    retry_events self target before attempt []
| retry_response before attempt rest :
    raises (http_get before target) = false ->
    retry_events self target (before ++ [Get target]) (attempt + 1) rest ->
    retry_events self target before attempt (Get target :: rest)
| retry_backoff before attempt rest :
    raises (http_get before target) = true ->
    attempt < _max_retries self - 1 ->
    retry_events self target
      (before ++ [Get target; Sleep (inject_Z (1 * (attempt + 1)))])
      (attempt + 1) rest ->
    retry_events self target before attempt
      (Get target :: Sleep (inject_Z (1 * (attempt + 1))) :: rest)
| retry_last before attempt rest :
    raises (http_get before target) = true ->
    _max_retries self - 1 <= attempt ->
    retry_events self target (before ++ [Get target]) (attempt + 1) rest ->
    retry_events self target before attempt (Get target :: rest).

(** What the loop does to the store: the caches are left alone, and the
    events it adds are those of [retry_events], with at most one GET for
    each attempt number. *)
Definition loop_effect (self : WebBrowser) (target : string) (a : nat)
    (n : nat) (st st' : Store) : Prop :=
  _visited_urls st' = _visited_urls st
  /\ _search_cache st' = _search_cache st
  /\ exists added,
       trace st' = (trace st ++ added)%list
       /\ (gets added <= n)%nat
       /\ retry_events self target (trace st) (Z.of_nat a) added.

(** An attempt that fails or parses zero results: it raised, or its
    status is not 200, or the parser of [engine] found nothing. *)
Definition barren (engine : string) (max_results : Z) (o : http_outcome)
    : Prop :=
  match o with
  | Response status html =>
      status <> 200 \/ parse_results engine (BeautifulSoup html) max_results = []
  | TimeoutError | ClientError _ => True
  end.

(** The outcomes that the GETs among the events [added] got, each asked
    after the history [before] and the events added before it. *)
Fixpoint outcomes (before added : list event) : list http_outcome :=
  match added with
  | [] => []
  | Get target :: rest =>
      http_get before target :: outcomes (before ++ [Get target]) rest
  | Sleep seconds :: rest => outcomes (before ++ [Sleep seconds]) rest
  end.

(** The outcomes of the GETs issued between a store and a later one:
    those of the attempts of a call that took the one to the other. *)
Definition outcomes_between (st st' : Store) : list http_outcome :=
  outcomes (trace st) (drop (length (trace st)) (trace st')).

(** The engine that [search] works with: an unknown one becomes Baidu. *)
Definition effective_engine (engine : string) : string :=
  match dict_get engine SEARCH_ENGINES with
  | Some _ => engine
  | None => "baidu"
  end.

(** The URL that [search] requests. *)
Definition search_url (query engine : string) : string :=
  (default "" (dict_get (effective_engine engine) SEARCH_ENGINES)
   ++ PyStr.replace_char " " "+" query)%string.

(** The key of a search in [_search_cache]. *)
Definition cache_key (engine query : string) : string :=
  (engine ++ ":" ++ query)%string.

(** What a search finds in the cache, if it looks. *)
Definition cache_lookup (use_cache : bool) (key : string) (st : Store)
    : option (list SearchResult) :=
  if use_cache then _search_cache st !! key else None.

(** What [fetch_page] finds in [_visited_urls], if it looks. *)
Definition page_lookup (use_cache : bool) (target : string) (st : Store)
    : option PageData :=
  if use_cache then _visited_urls st !! target else None.

(** The dictionary of a live search. *)
Definition live_response (query engine : string)
    (results : list SearchResult) : SearchResponse :=
  {| s_success := true; s_error := None; s_reason := None;
     s_results := Some results; s_query := Some query;
     s_engine := Some (effective_engine engine); s_cached := None |}.

(** The dictionary of a search served from the cache. *)
Definition cached_response (results : list SearchResult) : SearchResponse :=
  {| s_success := true; s_error := None; s_reason := None;
     s_results := Some results; s_query := None; s_engine := None;
     s_cached := Some true |}.

(** A call of one of the four public coroutines. *)
Inductive call :=
| CallSearch (query engine : string) (max_results : Z) (use_cache : bool)
| CallFetch (target : string) (extract_text extract_links use_cache : bool)
| CallCollect (query : string) (max_pages max_depth : Z)
| CallResearch (query : string) (num_iterations : Z).

Definition run_call (self : WebBrowser) (c : call) (st : Store) : Store :=
  match c with
  | CallSearch query engine max_results use_cache =>
      snd (search self query engine max_results use_cache st)
  | CallFetch target extract_text extract_links use_cache =>
      snd (fetch_page self target extract_text extract_links use_cache st)
  | CallCollect query max_pages max_depth =>
      snd (collect_information self query max_pages max_depth st)
  | CallResearch query num_iterations =>
      snd (search_and_research self query num_iterations st)
  end.

Definition run_calls (self : WebBrowser) (calls : list call) (st : Store)
    : Store :=
  fold_left (fun st c => run_call self c st) calls st.

(** A call that reads the search cache when it is a search for the
    entry [key]. *)
Definition reads_cache (key : string) (c : call) : bool :=
  match c with
  | CallSearch query engine _ use_cache =>
      negb (String.eqb (cache_key engine query) key) || use_cache
  | _ => true
  end.

(** The rounds of [search_and_research] that completed, from one store
    to another: each is a call of [collect_information] with [query] and
    [max_pages=3] that succeeded, followed by a suspension of a second. *)
Inductive completed_rounds (self : WebBrowser) (query : string)
    : Store -> list CollectResponse -> Store -> Prop :=
| rounds_none st :
    completed_rounds self query st [] st
| rounds_next st result st1 results st' :
    collect_information self query 3 1 st = (result, st1) ->
    c_success result = true ->
    completed_rounds self query (sleep (inject_Z 1) st1) results st' ->
    completed_rounds self query st (result :: results) st'.

End Vocabulary.


(** ** Vocabulary for the page cache *)

(** The number of pauses in a log. *)
Definition pauses (log : list event) : nat :=
  length (List.filter (fun e => match e with Get _ => false | Sleep _ => true end) log).

Section PageCache.
Context {unicode : PyStr.Unicode} {urls : UrlLibrary}.

(** A snapshot fit to be stored under [key]: [key] is a safe URL and
    the snapshot's own, the status is 200, the length is not negative,
    and every extracted link is safe. *)
Definition sound_snapshot (key : string) (data : PageData) : Prop :=
  _is_safe_url key = true
  /\ d_url data = key
  /\ d_status data = 200
  /\ 0 <= d_content_length data
  /\ forall links,
       d_links data = Some links ->
       Forall (fun l => _is_safe_url (link_url l) = true) links.

Definition well_cached (st : Store) : Prop :=
  forall key data,
    _visited_urls st !! key = Some data -> sound_snapshot key data.

End PageCache.


(** ** [SecurityManager.check_command_safety] ([src/utils/security.py]) *)

(** The two command lists of a [SecurityManager]. *)
Record CommandRules := {
  _command_blacklist : list string;
  _command_whitelist : list string;
}.

(** The command is stripped and lower-cased; a blacklisted text found in
    it refuses it; otherwise a whitelist that is not empty must hold a
    text the command starts with. *)
Definition check_command_safety {unicode : PyStr.Unicode}
    (rules : CommandRules) (command : string) : bool * string :=
  let command_lower := PyStr.lower (PyStr.strip command) in
  match first_blocked (_command_blacklist rules) command_lower with
  | Some forbidden => (false, "命令包含禁止的操作: " ++ forbidden)%string
  | None =>
      match _command_whitelist rules with
      | [] => (true, "")
      | _ :: _ =>
          if existsb
               (fun allowed =>
                  PyStr.startswith (PyStr.lower allowed) command_lower)
               (_command_whitelist rules)
          then (true, "")
          else (false, "命令不在允许列表中")
      end
  end.

(** ** [ConfigLoader.get] and [ConfigLoader.set]
    ([src/utils/config_loader.py]) *)

(** What [json.load] gives; an object is the list of its items, and a
    key is looked up at its first occurrence. *)
#[warnings="-register-all"]
Inductive json :=
| JNull
| JBool (b : bool)
| JNumber (n : Q)
| JString (s : string)
| JArray (items : list json)
| JObject (items : list (string * json)).

(** [d[key] = v] on the items of a dictionary: the value is replaced
    where the key is, or the item is added at the end. *)
Fixpoint dict_set {A} (key : string) (v : A) (d : list (string * A))
    : list (string * A) :=
  match d with
  | [] => [(key, v)]
  | (k, x) :: rest =>
      if String.eqb k key then (k, v) :: rest
      else (k, x) :: dict_set key v rest
  end.

(** [key.split('.')] *)
Definition split_key (key : string) : list string :=
  Reference.split_on "." key.

(** The loop of [get] over the keys still to follow; [None] is the
    return of the default. *)
Fixpoint get_loop (keys : list string) (value : json) : option json :=
  match keys with
  | [] => Some value
  | k :: rest =>
      match value with
      | JObject items =>
          match dict_get k items with
          | Some v => get_loop rest v
          | None => None
          end
      | _ => None
      end
  end.

(** [ConfigLoader.get(key, default)] on the loaded configuration. *)
Definition config_get (config : json) (key : string) (default : json) : json :=
  match get_loop (split_key key) config with
  | Some value => value
  | None => default
  end.

(** What [set] comes to: the configuration as it is afterwards with the
    verdict of [save_config]; the configuration as it is afterwards when
    [save_config] raised; or a [TypeError], raised before anything is
    changed, when the path runs into a value that is no dictionary. *)
Inductive set_outcome :=
| Saved (ok : bool) (config : json)
| SaveError (config : json)
| TypeError.

(** The loop of [set] over [keys[:-1]] and the final assignment of
    [keys[-1]], on the dictionary reached so far. *)
Fixpoint set_loop (keys : list string) (last_key : string) (value : json)
    (config : json) : option json :=
  match config with
  | JObject items =>
      match keys with
      | [] => Some (JObject (dict_set last_key value items))
      | k :: rest =>
          let child := default (JObject []) (dict_get k items) in
          match set_loop rest last_key value child with
          | Some child' => Some (JObject (dict_set k child' items))
          | None => None
          end
      end
  | _ => None
  end.

(** [ConfigLoader.set(key, value)]; [save_config] is the writing of the
    file: it reports whether the file was written, the failures of
    [open] and [json.dump] being caught, or is [None] where
    [os.makedirs], which is outside its [try], raises. *)
Definition config_set (save_config : json -> option bool) (config : json)
    (key : string) (value : json) : set_outcome :=
  let keys := split_key key in
  match set_loop (removelast keys) (List.last keys "") value config with
  | Some config' =>
      match save_config config' with
      | Some ok => Saved ok config'
      | None => SaveError config'
      end
  | None => TypeError
  end.

(** ** [AgentOrchestrator.auto_search_and_execute]
    ([src/modules/agent.py]) *)

(** What [ClaudeClient.chat] returns, as far as the agent reads it. *)
Record ChatResponse := {
  chat_success : bool;
  chat_content : option string;
}.

(** The model behind [chat]: its answer may depend on what happened
    before. *)
Class Assistant := {
  chat : list event -> string -> ChatResponse;
}.

(** The store of the agent's browser, and the calls of
    [send_text_message] so far, oldest first, each with its chat and
    its text. *)
Record AgentStore := {
  web : Store;
  outbox : list (string * string);
}.

Definition send_text_message (chat_id text : string) (st : AgentStore)
    : AgentStore :=
  {| web := web st; outbox := (outbox st ++ [(chat_id, text)])%list |}.

Definition with_web (st : AgentStore) (w : Store) : AgentStore :=
  {| web := w; outbox := outbox st |}.

(** What [auto_search_and_execute] returns: the failure of [search] as
    it is, a solution with its source, or the failure
    [未找到可行的解决方案]. *)
Inductive AutoResult :=
| AutoSearchFailed (failure : SearchResponse)
| AutoSolved (solution source_url : string)
| AutoNotFound.

Section Agent.
Context {unicode : PyStr.Unicode} {urls : UrlLibrary}
        {html_reader : HtmlLibrary} {world : World}
        {assistant : Assistant}.

Definition auto_search_and_execute (self : WebBrowser) (query chat_id : string)
    (st : AgentStore) : AutoResult * AgentStore :=
  let st := send_text_message chat_id "正在网上搜索解决方案..." st in
  let '(search_result, web1) := search self query "baidu" 3 true (web st) in
  let st := with_web st web1 in
  if negb (s_success search_result) then (AutoSearchFailed search_result, st)
  else
    match default [] (s_results search_result) with
    | [] => (AutoNotFound, st)
    | first_result :: _ =>
        let st :=
          send_text_message chat_id
            ("正在获取解决方案: " ++ title first_result) st in
        let '(page_result, web2) :=
          fetch_page self (url first_result) true false true (web st) in
        let st := with_web st web2 in
        if p_success page_result then
          let content := default "" (p_text page_result) in
          let summary_response :=
            chat (trace web2)
              ("请总结以下内容中的解决方案步骤：" ++ nl ++ nl
               ++ PyStr.take 2000 content) in
          if chat_success summary_response then
            let summary := default "" (chat_content summary_response) in
            let st :=
              send_text_message chat_id
                ("找到的解决方案：" ++ nl ++ nl ++ summary ++ nl ++ nl
                 ++ "如需我帮助执行，请告诉我。") st in
            (AutoSolved summary (url first_result), st)
          else (AutoNotFound, st)
        else (AutoNotFound, st)
    end.

End Agent.


(** ** Further fixtures of the examples *)

Module Fixtures.

(** A browser whose configuration switches web browsing off. *)
Definition disabled_browser : WebBrowser :=
  new_browser
    {| capabilities_web_browsing := Some false;
       advanced_timeout_seconds := None; advanced_max_retries := None;
       security_content_filter_enabled := None;
       security_blocked_keywords := None |}.

(** A browser whose configuration turns the content filter on and
    blocks one keyword. *)
Definition filtering_browser : WebBrowser :=
  new_browser
    {| capabilities_web_browsing := None; advanced_timeout_seconds := None;
       advanced_max_retries := None;
       security_content_filter_enabled := Some true;
       security_blocked_keywords := Some ["Casino"] |}.

(** A model that answers every prompt with the same summary. *)
Definition terse_assistant : Assistant :=
  {| chat := fun _ _ =>
       {| chat_success := true; chat_content := Some "Restart it." |} |}.

Definition fresh_agent : AgentStore := {| web := new_store; outbox := [] |}.

(** A configuration file with two sections. *)
Definition settings : json :=
  JObject
    [ ("capabilities", JObject [("web_browsing", JBool true)]);
      ("security", JObject [("blocked_keywords", JArray [])]) ].

(** [settings] after [set("security.content_filter.enabled", True)]. *)
Definition filtered_settings : json :=
  JObject
    [ ("capabilities", JObject [("web_browsing", JBool true)]);
      ("security",
       JObject
         [ ("blocked_keywords", JArray []);
           ("content_filter", JObject [("enabled", JBool true)]) ]) ].

(** A network that is down for the first three GETs and answers every
    later one with the result page. *)
Definition recovering : World :=
  {| http_get := fun log _ =>
       if (gets log <? 3)%nat then ClientError "Cannot connect to host"
       else Response 200 Demo.hits_html;
     strftime := Demo.clock |}.

(** What a live fetch of [Demo.home_html] stores when it is asked for
    the links and not for the text. *)
Definition home_plain : PageData :=
  {| d_url := Demo.home_url;
     d_status := 200;
     d_content_length := Z.of_nat (PyStr.len Demo.home_html);
     d_text := None;
     d_links :=
       Some [ {| link_text := "About";
                 link_url := "https://example.com/about" |};
              {| link_text := "more";
                 link_url := "https://example.org/more" |} ] |}.

(** A disk that takes every write. *)
Definition writable : json -> option bool := fun _ => Some true.

End Fixtures.

(** * Properties *)

Section Properties.
Context {unicode : PyStr.Unicode} {urls : UrlLibrary}
        {html_reader : HtmlLibrary} {world : World}.

(** ** URL safety *)

Lemma unparsable_url_rejected target :
  urlparse target = None -> _is_safe_url target = false.
Proof. intros Hp. unfold _is_safe_url. now rewrite Hp. Qed.

(** [fetch_page] stops at an unsafe URL before it touches the network or
    a cache. *)
Lemma fetch_page_unsafe self target extract_text extract_links use_cache st :
  _is_safe_url target = false ->
  p_success (fst (fetch_page self target extract_text extract_links use_cache st)) = false
  /\ snd (fetch_page self target extract_text extract_links use_cache st) = st.
Proof.
  intros Hunsafe. unfold fetch_page. rewrite Hunsafe.
  destruct (_enabled self); simpl; auto.
Qed.

(** C1, amended.  A URL is rejected by [_is_safe_url] when its scheme or
    its network location ([netloc]) is empty, when its scheme is neither
    http nor https, when its host is one of the literals [localhost],
    [127.0.0.1], [0.0.0.0], [::1], or when its host parses as an IP
    address that is private, loopback or link-local; [fetch_page] on
    such a URL returns a failure and leaves the store as it was: no GET
    is issued and no cache is written. *)
Theorem unsafe_url_rejected target parsed :
  urlparse target = Some parsed ->
  scheme parsed = "" \/ netloc parsed = ""
  \/ scheme parsed ∉ ["http"; "https"]
  \/ hostname parsed ∈
       [Some "localhost"; Some "127.0.0.1"; Some "0.0.0.0"; Some "::1"]
  \/ (exists host ip,
        hostname parsed = Some host /\ ip_address host = Some ip
        /\ is_private ip || is_loopback ip || is_link_local ip = true) ->
  _is_safe_url target = false
  /\ forall self extract_text extract_links use_cache st,
       p_success (fst (fetch_page self target extract_text extract_links
                         use_cache st)) = false
       /\ snd (fetch_page self target extract_text extract_links use_cache st)
          = st.
Proof.
  intros Hparse Hbad.
  assert (Hunsafe : _is_safe_url target = false).
  { unfold _is_safe_url. rewrite Hparse.
    destruct (String.eqb (scheme parsed) "" || String.eqb (netloc parsed) "")
      eqn:Hempty; [reflexivity |].
    apply orb_false_elim in Hempty as [Hs0 Hn0].
    apply String.eqb_neq in Hs0, Hn0.
    destruct Hbad as [Hs | [Hn | [Hs | [Hh | (host & ip & Hh & Hip & Hflags)]]]];
      try contradiction.
    - rewrite bool_decide_eq_false_2 by assumption. reflexivity.
    - destruct (negb _); [reflexivity |].
      rewrite bool_decide_eq_true_2 by assumption. reflexivity.
    - destruct (negb _); [reflexivity |].
      destruct (bool_decide _); [reflexivity |].
      rewrite Hh, Hip, Hflags. reflexivity. }
  split; [exact Hunsafe |].
  intros. now apply fetch_page_unsafe.
Qed.

(** ** The retry loop *)

Lemma gets_app l1 l2 : gets (l1 ++ l2) = (gets l1 + gets l2)%nat.
Proof. unfold gets. now rewrite List.filter_app, length_app. Qed.

Lemma length_slice_to {A} (n : Z) (l : list A) :
  0 <= n -> Z.of_nat (length (slice_to n l)) <= n.
Proof.
  intros Hn. unfold slice_to.
  destruct (0 <=? n) eqn:E; [| lia].
  rewrite length_take. lia.
Qed.

Lemma gets_cons_get target l : gets (Get target :: l) = S (gets l).
Proof. reflexivity. Qed.

Lemma gets_cons_sleep d l : gets (Sleep d :: l) = gets l.
Proof. reflexivity. Qed.

Lemma loop_effect_response self target a n st st' :
  raises (http_get (trace st) target) = false ->
  loop_effect self target (S a) n (emit (Get target) st) st' ->
  loop_effect self target a (S n) st st'.
Proof.
  intros Hout (Hv & Hc & added & Htr & Hg & Hev). simpl in *.
  split; [exact Hv | split; [exact Hc |]].
  exists (Get target :: added). split; [| split].
  - rewrite Htr, <- app_assoc. reflexivity.
  - rewrite gets_cons_get. lia.
  - apply retry_response; [exact Hout |].
    replace (Z.of_nat a + 1) with (Z.of_nat (S a)) by lia. exact Hev.
Qed.

Lemma loop_effect_raise self target a n st st' :
  raises (http_get (trace st) target) = true ->
  loop_effect self target (S a) n
    (if Z.of_nat a <? _max_retries self - 1
     then sleep (inject_Z (1 * (Z.of_nat a + 1))) (emit (Get target) st)
     else emit (Get target) st)
    st' ->
  loop_effect self target a (S n) st st'.
Proof.
  intros Hout. destruct (Z.of_nat a <? _max_retries self - 1) eqn:Hlt;
    intros (Hv & Hc & added & Htr & Hg & Hev); simpl in *;
    (split; [exact Hv | split; [exact Hc |]]).
  - exists (Get target :: Sleep (inject_Z (1 * (Z.of_nat a + 1))) :: added).
    split; [| split].
    + rewrite Htr, <- !app_assoc. reflexivity.
    + rewrite gets_cons_get, gets_cons_sleep. lia.
    + apply retry_backoff; [exact Hout | lia |].
      replace (Z.of_nat a + 1) with (Z.of_nat (S a)) at 2 by lia.
      rewrite <- app_assoc in Hev. exact Hev.
  - exists (Get target :: added). split; [| split].
    + rewrite Htr, <- app_assoc. reflexivity.
    + rewrite gets_cons_get. lia.
    + apply retry_last; [exact Hout | lia |].
      replace (Z.of_nat a + 1) with (Z.of_nat (S a)) by lia. exact Hev.
Qed.

Lemma fetch_loop_events self target max_results engine n :
  forall a results st,
    loop_effect self target a n st
      (snd (fetch_loop self target max_results engine
              (List.map Z.of_nat (seq a n)) results st)).
Proof.
  induction n as [| n IH]; intros a results st; simpl.
  - split; [reflexivity | split; [reflexivity |]].
    exists []. rewrite app_nil_r. split; [reflexivity | split].
    + unfold gets. simpl. lia.
    + constructor.
  - unfold attempt_try, session_get.
    destruct (http_get (trace st) target) as [status html | | msg] eqn:Hout.
    + destruct (negb (status =? 200)).
      { apply loop_effect_response; [now rewrite Hout | apply IH]. }
      destruct (parse_results engine (BeautifulSoup html) max_results).
      { apply loop_effect_response; [now rewrite Hout | apply IH]. }
      simpl. apply loop_effect_response; [now rewrite Hout |].
      split; [reflexivity | split; [reflexivity |]].
      exists []. rewrite app_nil_r. split; [reflexivity | split].
      * unfold gets. simpl. lia.
      * constructor.
    + apply loop_effect_raise; [now rewrite Hout |].
      destruct (Z.of_nat a <? _max_retries self - 1); apply IH.
    + apply loop_effect_raise; [now rewrite Hout |].
      destruct (Z.of_nat a <? _max_retries self - 1); apply IH.
Qed.


(** ** The three ways through [search] *)

Lemma search_disabled self query engine max_results use_cache st :
  _enabled self = false ->
  search self query engine max_results use_cache st
  = (search_failure "网络浏览功能未启用" None, st).
Proof. intros He. unfold search. now rewrite He. Qed.

Lemma search_content_rejected self query engine max_results use_cache st :
  _enabled self = true ->
  fst (check_content_safety (_security self) query) = false ->
  search self query engine max_results use_cache st
  = (search_failure "内容安全检查失败"
       (Some (snd (check_content_safety (_security self) query))), st).
Proof.
  intros He Hc. unfold search. rewrite He. simpl.
  destruct (check_content_safety _ _) as [allowed reason]. simpl in *.
  now subst.
Qed.

Lemma search_hit self query engine max_results use_cache st cached :
  _enabled self = true ->
  fst (check_content_safety (_security self) query) = true ->
  cache_lookup use_cache (cache_key engine query) st = Some cached ->
  search self query engine max_results use_cache st
  = (cached_response cached, st).
Proof.
  intros He Hc Hhit. unfold search. rewrite He. simpl.
  destruct (check_content_safety _ _) as [allowed reason]. simpl in *. subst.
  simpl. unfold cache_lookup, cache_key in Hhit. now rewrite Hhit.
Qed.

Lemma search_live self query engine max_results use_cache st :
  _enabled self = true ->
  fst (check_content_safety (_security self) query) = true ->
  cache_lookup use_cache (cache_key engine query) st = None ->
  search self query engine max_results use_cache st
  = (live_response query engine
       (fst (_fetch_search_results self (search_url query engine) max_results
               (effective_engine engine) st)),
     cache_search (cache_key engine query)
       (fst (_fetch_search_results self (search_url query engine) max_results
               (effective_engine engine) st))
       (snd (_fetch_search_results self (search_url query engine) max_results
               (effective_engine engine) st))).
Proof.
  intros He Hc Hmiss. unfold search. rewrite He. simpl.
  destruct (check_content_safety _ _) as [allowed reason]. simpl in *. subst.
  simpl. unfold cache_lookup, cache_key in Hmiss. rewrite Hmiss.
  unfold search_url, effective_engine.
  destruct (_fetch_search_results _ _ _ _ _). reflexivity.
Qed.

(** Past its two gates, [search] reports success, whatever the network
    did: the exceptions of the attempts never reach it. *)
Lemma search_past_gates_succeeds self query engine max_results use_cache st :
  _enabled self = true ->
  fst (check_content_safety (_security self) query) = true ->
  s_success (fst (search self query engine max_results use_cache st)) = true.
Proof.
  intros He Hc.
  destruct (cache_lookup use_cache (cache_key engine query) st) eqn:Hl.
  - now rewrite (search_hit _ _ _ _ _ _ _ He Hc Hl).
  - now rewrite (search_live _ _ _ _ _ _ He Hc Hl).
Qed.

Lemma fetch_search_results_effect self target max_results engine st :
  loop_effect self target 0 (Z.to_nat (_max_retries self)) st
    (snd (_fetch_search_results self target max_results engine st)).
Proof.
  unfold _fetch_search_results, range.
  pose proof (fetch_loop_events self target max_results engine
                (Z.to_nat (_max_retries self)) 0%nat [] st) as Hloop.
  destruct (fetch_loop _ _ _ _ _ _ _). exact Hloop.
Qed.

(** A search that is not served from the cache returns at most
    [max_results] results. *)
Lemma live_search_bounded self query engine max_results use_cache st :
  0 <= max_results ->
  cache_lookup use_cache (cache_key engine query) st = None ->
  forall results,
    s_results (fst (search self query engine max_results use_cache st))
    = Some results ->
    Z.of_nat (length results) <= max_results.
Proof.
  intros Hn Hmiss results.
  destruct (_enabled self) eqn:He;
    [| rewrite search_disabled by assumption; discriminate].
  destruct (fst (check_content_safety (_security self) query)) eqn:Hc;
    [| rewrite search_content_rejected by assumption; discriminate].
  rewrite search_live by assumption. simpl.
  intros [= <-]. unfold _fetch_search_results.
  destruct (fetch_loop _ _ _ _ _ _ _). simpl. now apply length_slice_to.
Qed.



(** ** The search cache *)

Lemma cache_lookup_cache_search key results st :
  cache_lookup true key (cache_search key results st) = Some results.
Proof. unfold cache_lookup, cache_search. simpl. apply lookup_insert_eq. Qed.

(** C3, amended.  Of two consecutive [search] calls for the same engine
    and query with [use_cache=true], the second returns the very results
    list of the first and leaves the store as the first left it, so it
    issues no GET; when the first call returned results, the second
    returns exactly [success: true], those [results] and [cached: true],
    without the [query] and [engine] keys of a live result. *)
Theorem repeated_search_served_from_cache self query engine m1 m2 st :
  let first := search self query engine m1 true st in
  let second := search self query engine m2 true (snd first) in
  s_results (fst second) = s_results (fst first)
  /\ snd second = snd first
  /\ match s_results (fst first) with
     | Some results =>
         fst second = cached_response results
         /\ search_keys (fst second) = {["success"; "results"; "cached"]}
     | None => fst second = fst first
     end.
Proof.
  assert (Hkeys : forall results,
            search_keys (cached_response results)
            = {["success"; "results"; "cached"]}).
  { intros results. unfold search_keys, cached_response, key_if. simpl.
    set_solver. }
  simpl.
  destruct (_enabled self) eqn:He;
    [| now rewrite !search_disabled by assumption].
  destruct (fst (check_content_safety (_security self) query)) eqn:Hc;
    [| now rewrite !search_content_rejected by assumption].
  destruct (cache_lookup true (cache_key engine query) st) as [cached |] eqn:Hl.
  - rewrite (search_hit _ _ _ m1 _ _ _ He Hc Hl). simpl.
    rewrite (search_hit _ _ _ m2 _ _ _ He Hc Hl). simpl. auto.
  - rewrite (search_live _ _ _ m1 _ _ He Hc Hl). simpl.
    rewrite (search_hit _ _ _ m2 _ _ _ He Hc
               (cache_lookup_cache_search _ _ _)).
    simpl. auto.
Qed.


(** ** Attempts that find nothing *)

Lemma gets_emit_get target st :
  gets (trace (emit (Get target) st)) = S (gets (trace st)).
Proof. simpl. rewrite gets_app. unfold gets at 2. simpl. lia. Qed.

Lemma gets_sleep d st : gets (trace (sleep d st)) = gets (trace st).
Proof. simpl. rewrite gets_app. unfold gets at 2. simpl. lia. Qed.

Lemma barren_after engine max_results target st (more : list event) :
  (forall added,
     barren engine max_results (http_get (trace st ++ added) target)) ->
  forall st',
    trace st' = (trace st ++ more)%list ->
    forall added,
      barren engine max_results (http_get (trace st' ++ added) target).
Proof.
  intros Hb st' Htr added. rewrite Htr, <- app_assoc. apply Hb.
Qed.

(** When every attempt fails or parses nothing, the loop runs all its
    attempts and ends with the empty list. *)
Lemma fetch_loop_barren self target max_results engine attempts :
  forall st,
    (forall added,
       barren engine max_results (http_get (trace st ++ added) target)) ->
    fst (fetch_loop self target max_results engine attempts [] st) = []
    /\ gets (trace (snd (fetch_loop self target max_results engine attempts
                           [] st)))
       = (gets (trace st) + length attempts)%nat.
Proof.
  induction attempts as [| attempt rest IH]; intros st Hb; simpl.
  - split; [reflexivity | lia].
  - pose proof (Hb []) as Hnow. rewrite app_nil_r in Hnow.
    assert (Hget : forall added,
              barren engine max_results
                (http_get (trace (emit (Get target) st) ++ added) target)).
    { apply (barren_after _ _ _ st [Get target]); [exact Hb | reflexivity]. }
    assert (Hsleep : forall d added,
              barren engine max_results
                (http_get (trace (sleep d (emit (Get target) st)) ++ added)
                   target)).
    { intros d. apply (barren_after _ _ _ st [Get target; Sleep d]);
        [exact Hb |]. simpl. now rewrite <- app_assoc. }
    unfold attempt_try, session_get.
    destruct (http_get (trace st) target) as [status html | | msg];
      simpl in Hnow.
    + destruct (negb (status =? 200)) eqn:Hst.
      * destruct (IH _ Hget) as [Hr Hg]. rewrite Hr, Hg, gets_emit_get.
        split; [reflexivity | lia].
      * destruct Hnow as [Hne | Hempty].
        { apply negb_false_iff, Z.eqb_eq in Hst. contradiction. }
        rewrite Hempty.
        destruct (IH _ Hget) as [Hr Hg]. rewrite Hr, Hg, gets_emit_get.
        split; [reflexivity | lia].
    + destruct (attempt <? _max_retries self - 1).
      * destruct (IH _ (Hsleep (inject_Z (1 * (attempt + 1))))) as [Hr Hg].
        rewrite Hr, Hg, gets_sleep, gets_emit_get. split; [reflexivity | lia].
      * destruct (IH _ Hget) as [Hr Hg]. rewrite Hr, Hg, gets_emit_get.
        split; [reflexivity | lia].
    + destruct (attempt <? _max_retries self - 1).
      * destruct (IH _ (Hsleep (inject_Z (1 * (attempt + 1))))) as [Hr Hg].
        rewrite Hr, Hg, gets_sleep, gets_emit_get. split; [reflexivity | lia].
      * destruct (IH _ Hget) as [Hr Hg]. rewrite Hr, Hg, gets_emit_get.
        split; [reflexivity | lia].
Qed.

Lemma slice_to_nil {A} (n : Z) : slice_to n (@nil A) = [].
Proof. unfold slice_to. destruct (0 <=? n); now rewrite take_nil. Qed.

Lemma length_range n : length (range n) = Z.to_nat n.
Proof. unfold range. now rewrite length_map, length_seq. Qed.

Lemma fetch_search_results_barren self target max_results engine st :
  (forall added,
     barren engine max_results (http_get (trace st ++ added) target)) ->
  fst (_fetch_search_results self target max_results engine st) = []
  /\ gets (trace (snd (_fetch_search_results self target max_results engine
                         st)))
     = (gets (trace st) + Z.to_nat (_max_retries self))%nat.
Proof.
  intros Hb. unfold _fetch_search_results.
  destruct (fetch_loop_barren self target max_results engine
              (range (_max_retries self)) st Hb) as [Hr Hg].
  destruct (fetch_loop _ _ _ _ _ _ _) as [results st']. simpl in *.
  subst results. rewrite slice_to_nil, Hg, length_range. auto.
Qed.



(** ** What the coroutines leave in the search cache *)

Lemma fetch_page_search_cache self target extract_text extract_links use_cache
    st :
  _search_cache (snd (fetch_page self target extract_text extract_links
                        use_cache st))
  = _search_cache st.
Proof.
  unfold fetch_page, session_get.
  destruct (_enabled self); simpl; [| reflexivity].
  destruct (_is_safe_url target); simpl; [| reflexivity].
  destruct (if use_cache then _ else _); [reflexivity |].
  destruct (http_get (trace st) target) as [status html | | msg];
    try reflexivity.
  destruct (negb (status =? 200)); [reflexivity |].
  destruct (snapshot target status html extract_text extract_links);
    reflexivity.
Qed.

Lemma fetch_search_results_search_cache self target max_results engine st :
  _search_cache (snd (_fetch_search_results self target max_results engine st))
  = _search_cache st.
Proof.
  destruct (fetch_search_results_effect self target max_results engine st)
    as (_ & Hc & _). exact Hc.
Qed.

(** An entry survives a search that is for another key or may read the
    cache. *)
Lemma search_keeps_entry self query engine max_results use_cache st key v :
  negb (String.eqb (cache_key engine query) key) || use_cache = true ->
  _search_cache st !! key = Some v ->
  _search_cache (snd (search self query engine max_results use_cache st))
    !! key = Some v.
Proof.
  intros Hreads Hentry.
  destruct (_enabled self) eqn:He;
    [| now rewrite search_disabled by assumption].
  destruct (fst (check_content_safety (_security self) query)) eqn:Hc;
    [| now rewrite search_content_rejected by assumption].
  destruct (cache_lookup use_cache (cache_key engine query) st) eqn:Hl.
  - now rewrite (search_hit _ _ _ _ _ _ _ He Hc Hl).
  - rewrite (search_live _ _ _ _ _ _ He Hc Hl). simpl.
    rewrite fetch_search_results_search_cache.
    destruct (String.eqb (cache_key engine query) key) eqn:Hk.
    + apply String.eqb_eq in Hk. subst key. simpl in Hreads. subst use_cache.
      unfold cache_lookup in Hl. congruence.
    + apply String.eqb_neq in Hk. now rewrite lookup_insert_ne.
Qed.

Lemma visit_results_search_cache self todo :
  forall collected_info st,
    _search_cache (snd (visit_results self todo collected_info st))
    = _search_cache st.
Proof.
  induction todo as [| result rest IH]; intros collected_info st; simpl;
    [reflexivity |].
  destruct (String.eqb (url result) ""); [apply IH |].
  pose proof (fetch_page_search_cache self (url result) true false true st)
    as Hf.
  destruct (fetch_page self (url result) true false true st)
    as [page_result st1].
  simpl in Hf. rewrite IH. simpl. exact Hf.
Qed.

Lemma collect_information_keeps_entry self query max_pages max_depth st key v :
  _search_cache st !! key = Some v ->
  _search_cache (snd (collect_information self query max_pages max_depth st))
    !! key = Some v.
Proof.
  intros Hentry. unfold collect_information.
  destruct (_enabled self); simpl; [| exact Hentry].
  pose proof (search_keeps_entry self query "baidu" max_pages true st key v)
    as Hs.
  rewrite orb_true_r in Hs. specialize (Hs eq_refl Hentry).
  destruct (search self query "baidu" max_pages true st)
    as [search_result st1].
  simpl in Hs.
  destruct (negb (s_success search_result)); [exact Hs |].
  destruct (s_results search_result) as [search_results |]; [| exact Hs].
  pose proof (visit_results_search_cache self
                (slice_to max_pages search_results) [] st1) as Hv.
  destruct (visit_results _ _ _ _) as [collected_info st2].
  simpl in *. now rewrite Hv.
Qed.

Lemma research_loop_keeps_entry self query num_iterations key v rounds :
  forall all_results current_query st,
    _search_cache st !! key = Some v ->
    _search_cache
      (snd (research_loop self query num_iterations rounds all_results
              current_query st)) !! key = Some v.
Proof.
  induction rounds as [| i rest IH]; intros all_results current_query st Hentry;
    simpl; [exact Hentry |].
  pose proof (collect_information_keeps_entry self current_query 3 1 st key v
                Hentry) as Hc.
  destruct (collect_information self current_query 3 1 st) as [result st1].
  simpl in Hc.
  destruct (negb (c_success result)); [exact Hc |].
  apply IH. exact Hc.
Qed.

Lemma run_calls_keep_entry self key v calls :
  forall st,
    forallb (reads_cache key) calls = true ->
    _search_cache st !! key = Some v ->
    _search_cache (run_calls self calls st) !! key = Some v.
Proof.
  unfold run_calls.
  induction calls as [| c rest IH]; intros st Hreads Hentry; simpl;
    [exact Hentry |].
  simpl in Hreads. apply andb_prop in Hreads as [Hc Hrest].
  apply IH; [exact Hrest |].
  destruct c as [query engine max_results use_cache
                | target extract_text extract_links use_cache
                | query max_pages max_depth
                | query num_iterations]; simpl.
  - now apply search_keeps_entry.
  - now rewrite fetch_page_search_cache.
  - now apply collect_information_keeps_entry.
  - unfold search_and_research.
    destruct (_enabled self); simpl; [| exact Hentry].
    pose proof (research_loop_keeps_entry self query num_iterations key v
                  (range num_iterations) [] query st Hentry) as Hr.
    destruct (research_loop _ _ _ _ _ _ _). exact Hr.
Qed.

Lemma outcomes_app before l1 l2 :
  outcomes before (l1 ++ l2)
  = (outcomes before l1 ++ outcomes (before ++ l1) l2)%list.
Proof.
  revert before. induction l1 as [| e l1 IH]; intros before; simpl.
  - now rewrite app_nil_r.
  - destruct e; simpl; rewrite IH, <- app_assoc; reflexivity.
Qed.

Lemma outcomes_between_app st st1 st' more added :
  trace st1 = (trace st ++ more)%list ->
  trace st' = (trace st1 ++ added)%list ->
  outcomes_between st st'
  = (outcomes (trace st) more ++ outcomes_between st1 st')%list.
Proof.
  intros H1 H2. unfold outcomes_between.
  rewrite H2, drop_app_length, H1, <- app_assoc, drop_app_length.
  apply outcomes_app.
Qed.

Lemma fetch_loop_extends self target max_results engine attempts :
  forall results st,
    exists added,
      trace (snd (fetch_loop self target max_results engine attempts results
                    st))
      = (trace st ++ added)%list.
Proof.
  induction attempts as [| attempt rest IH]; intros results st; simpl.
  - exists []. now rewrite app_nil_r.
  - unfold attempt_try, session_get.
    destruct (http_get (trace st) target) as [status html | | msg].
    + destruct (negb (status =? 200)).
      { destruct (IH results (emit (Get target) st)) as [added Ha].
        rewrite Ha. simpl. rewrite <- app_assoc. eauto. }
      destruct (parse_results engine (BeautifulSoup html) max_results).
      { destruct (IH [] (emit (Get target) st)) as [added Ha].
        rewrite Ha. simpl. rewrite <- app_assoc. eauto. }
      simpl. eauto.
    + destruct (attempt <? _max_retries self - 1).
      * destruct (IH results (sleep (inject_Z (1 * (attempt + 1)))
                                (emit (Get target) st))) as [added Ha].
        rewrite Ha. simpl. rewrite <- !app_assoc. eauto.
      * destruct (IH results (emit (Get target) st)) as [added Ha].
        rewrite Ha. simpl. rewrite <- app_assoc. eauto.
    + destruct (attempt <? _max_retries self - 1).
      * destruct (IH results (sleep (inject_Z (1 * (attempt + 1)))
                                (emit (Get target) st))) as [added Ha].
        rewrite Ha. simpl. rewrite <- !app_assoc. eauto.
      * destruct (IH results (emit (Get target) st)) as [added Ha].
        rewrite Ha. simpl. rewrite <- app_assoc. eauto.
Qed.

(** What the attempts from [st] on got, when the loop goes on from
    the later store [st1]. *)
Lemma own_attempts_split self target max_results engine attempts results
    (P : http_outcome -> Prop) st st1 more :
  trace st1 = (trace st ++ more)%list ->
  Forall P
    (outcomes_between st
       (snd (fetch_loop self target max_results engine attempts results
               st1))) ->
  Forall P (outcomes (trace st) more)
  /\ Forall P
       (outcomes_between st1
          (snd (fetch_loop self target max_results engine attempts results
                  st1))).
Proof.
  intros Hmore Hall.
  destruct (fetch_loop_extends self target max_results engine attempts
              results st1) as [added Hadded].
  rewrite (outcomes_between_app st st1 _ more added Hmore Hadded) in Hall.
  now apply Forall_app in Hall.
Qed.

(** When every attempt that the loop makes fails or parses nothing, it
    runs all its attempts and ends with the empty list. *)
Lemma fetch_loop_own_barren self target max_results engine attempts :
  forall st,
    Forall (barren engine max_results)
      (outcomes_between st
         (snd (fetch_loop self target max_results engine attempts [] st))) ->
    fst (fetch_loop self target max_results engine attempts [] st) = []
    /\ gets (trace (snd (fetch_loop self target max_results engine attempts
                           [] st)))
       = (gets (trace st) + length attempts)%nat.
Proof.
  induction attempts as [| attempt rest IH]; intros st; cbn [fetch_loop].
  - intros _. split; [reflexivity | simpl; lia].
  - unfold attempt_try, session_get.
    destruct (http_get (trace st) target) as [status html | | msg] eqn:Hout.
    + destruct (negb (status =? 200)) eqn:Hst.
      { intros Hall.
        apply (own_attempts_split _ _ _ _ _ _ _ st (emit (Get target) st)
                 [Get target] eq_refl)
          in Hall as [_ Hrest].
        destruct (IH _ Hrest) as [Hr Hg]. rewrite Hr, Hg, gets_emit_get.
        split; [reflexivity | simpl; lia]. }
      destruct (parse_results engine (BeautifulSoup html) max_results)
        as [| r found] eqn:Hparse.
      { intros Hall.
        apply (own_attempts_split _ _ _ _ _ _ _ st (emit (Get target) st)
                 [Get target] eq_refl)
          in Hall as [_ Hrest].
        destruct (IH _ Hrest) as [Hr Hg]. rewrite Hr, Hg, gets_emit_get.
        split; [reflexivity | simpl; lia]. }
      intros Hall. exfalso.
      unfold outcomes_between in Hall. simpl in Hall.
      rewrite drop_app_length in Hall. simpl in Hall. rewrite Hout in Hall.
      apply Forall_cons in Hall as [[Hne | Hempty] _].
      * apply negb_false_iff, Z.eqb_eq in Hst. contradiction.
      * rewrite Hparse in Hempty. discriminate.
    + destruct (attempt <? _max_retries self - 1); intros Hall.
      * apply (own_attempts_split _ _ _ _ _ _ _ st
                 (sleep (inject_Z (1 * (attempt + 1))) (emit (Get target) st))
                 [Get target; Sleep (inject_Z (1 * (attempt + 1)))])
          in Hall as [_ Hrest]; [| simpl; now rewrite <- app_assoc].
        destruct (IH _ Hrest) as [Hr Hg].
        rewrite Hr, Hg, gets_sleep, gets_emit_get.
        split; [reflexivity | simpl; lia].
      * apply (own_attempts_split _ _ _ _ _ _ _ st (emit (Get target) st)
                 [Get target] eq_refl)
          in Hall as [_ Hrest].
        destruct (IH _ Hrest) as [Hr Hg]. rewrite Hr, Hg, gets_emit_get.
        split; [reflexivity | simpl; lia].
    + destruct (attempt <? _max_retries self - 1); intros Hall.
      * apply (own_attempts_split _ _ _ _ _ _ _ st
                 (sleep (inject_Z (1 * (attempt + 1))) (emit (Get target) st))
                 [Get target; Sleep (inject_Z (1 * (attempt + 1)))])
          in Hall as [_ Hrest]; [| simpl; now rewrite <- app_assoc].
        destruct (IH _ Hrest) as [Hr Hg].
        rewrite Hr, Hg, gets_sleep, gets_emit_get.
        split; [reflexivity | simpl; lia].
      * apply (own_attempts_split _ _ _ _ _ _ _ st (emit (Get target) st)
                 [Get target] eq_refl)
          in Hall as [_ Hrest].
        destruct (IH _ Hrest) as [Hr Hg]. rewrite Hr, Hg, gets_emit_get.
        split; [reflexivity | simpl; lia].
Qed.

Lemma fetch_search_results_own_barren self target max_results engine st :
  Forall (barren engine max_results)
    (outcomes_between st
       (snd (_fetch_search_results self target max_results engine st))) ->
  fst (_fetch_search_results self target max_results engine st) = [].
Proof.
  unfold _fetch_search_results.
  pose proof (fetch_loop_own_barren self target max_results engine
                (range (_max_retries self)) st) as Hloop.
  destruct (fetch_loop _ _ _ _ _ _ _) as [results st']. simpl in *.
  intros Hall. destruct (Hloop Hall) as [-> _]. apply slice_to_nil.
Qed.



(** ** The research rounds *)

Lemma completed_rounds_snoc self query st results st1 result st2 :
  completed_rounds self query st results st1 ->
  collect_information self query 3 1 st1 = (result, st2) ->
  c_success result = true ->
  completed_rounds self query st (results ++ [result])
    (sleep (inject_Z 1) st2).
Proof.
  intros Hrounds Hcall Hok. induction Hrounds as [st | st r0 st0 rs st' Hc0 Hok0 _ IH].
  - simpl. eapply rounds_next; [exact Hcall | exact Hok | constructor].
  - simpl. eapply rounds_next; [exact Hc0 | exact Hok0 |]. apply IH. exact Hcall.
Qed.

(** The loop, started with [current_query] equal to the original query,
    keeps it so: every round calls [collect_information] with the
    original query. *)
Lemma research_loop_rounds self query num_iterations rounds :
  forall st0 all_results st,
    completed_rounds self query st0 all_results st ->
    let out :=
      research_loop self query num_iterations rounds all_results query st in
    exists st_mid,
      completed_rounds self query st0 (fst out) st_mid
      /\ ((snd out = st_mid
           /\ (length (fst out) <= length all_results + length rounds)%nat)
          \/ (exists failed,
                collect_information self query 3 1 st_mid = (failed, snd out)
                /\ c_success failed = false
                /\ (length (fst out) < length all_results + length rounds)%nat)).
Proof.
  induction rounds as [| i rest IH]; intros st0 all_results st Hdone; simpl.
  - exists st. split; [exact Hdone |]. left. split; [reflexivity | lia].
  - destruct (collect_information self query 3 1 st) as [result st1] eqn:Hcall.
    destruct (c_success result) eqn:Hok; simpl.
    + assert (Hq : (if i <? num_iterations - 1 then query else query) = query)
        by now destruct (i <? num_iterations - 1).
      rewrite Hq.
      destruct (IH st0 (all_results ++ [result])%list (sleep (inject_Z 1) st1)
                  (completed_rounds_snoc _ _ _ _ _ _ _ Hdone Hcall Hok))
        as (st_mid & Hrounds & Hend).
      exists st_mid. split; [exact Hrounds |].
      rewrite length_app in Hend. simpl in Hend.
      destruct Hend as [[Hs Hl] | (failed & Hf & Hno & Hl)].
      * left. split; [exact Hs | lia].
      * right. exists failed. repeat split; [exact Hf | exact Hno | lia].
    + exists st. split; [exact Hdone |]. right. exists result.
      split; [exact Hcall | split; [exact Hok | lia]].
Qed.

(** C9.  [search_and_research] on an enabled browser runs at most
    [num_iterations] rounds; every round calls [collect_information]
    with the original query and [max_pages=3]; the rounds that succeeded
    are returned in [results], a round that fails ends the loop, and
    [total_sources] is the sum over the returned rounds of the length of
    their [detailed_info]. *)
Theorem research_rounds self query num_iterations st :
  _enabled self = true ->
  let out := search_and_research self query num_iterations st in
  exists results st_mid,
    completed_rounds self query st results st_mid
    /\ r_results (fst out) = Some results
    /\ r_iterations (fst out) = Some (Z.of_nat (length results))
    /\ r_total_sources (fst out)
       = Some (sum_Z (List.map
                        (fun r => Z.of_nat (length (c_detailed_info r)))
                        results))
    /\ ((snd out = st_mid
         /\ (length results <= Z.to_nat num_iterations)%nat)
        \/ (exists failed,
              collect_information self query 3 1 st_mid = (failed, snd out)
              /\ c_success failed = false
              /\ (length results < Z.to_nat num_iterations)%nat)).
Proof.
  intros He. unfold search_and_research. rewrite He. simpl.
  destruct (research_loop_rounds self query num_iterations
              (range num_iterations) st [] st (rounds_none _ _ _))
    as (st_mid & Hrounds & Hend).
  destruct (research_loop _ _ _ _ _ _ _) as [all_results st']. simpl in *.
  rewrite length_range in Hend.
  exists all_results, st_mid. repeat split; auto.
Qed.


(** ** The page fetcher, served live *)

Lemma fetch_page_hit self target extract_text extract_links st data :
  _enabled self = true ->
  _is_safe_url target = true ->
  _visited_urls st !! target = Some data ->
  fetch_page self target extract_text extract_links true st
  = (page_cached data, st).
Proof.
  intros He Hsafe Hhit. unfold fetch_page. now rewrite He, Hsafe, Hhit.
Qed.

(** What a snapshot that was built holds. *)
Lemma snapshot_ok target status html extract_text extract_links data :
  snapshot target status html extract_text extract_links = Ok data ->
  let doc :=
    if extract_text
    then decompose_all ["script"; "style"; "nav"; "footer"; "header"]
           (BeautifulSoup html)
    else BeautifulSoup html in
  d_url data = target
  /\ d_status data = status
  /\ d_content_length data = Z.of_nat (PyStr.len html)
  /\ d_text data
     = (if extract_text then Some (collapse_blank_lines (get_text nl doc))
        else None)
  /\ if extract_links
     then exists links,
            extract_links_loop target (find_all_a_href doc) = Ok links
            /\ d_links data = Some links
     else d_links data = None.
Proof.
  unfold snapshot. destruct extract_links.
  - destruct (extract_links_loop target _) as [links | e] eqn:Hloop;
      [| discriminate].
    intros [= <-]. simpl. repeat split; try reflexivity.
    exists links. destruct extract_text; auto.
  - intros [= <-]. simpl. repeat split; reflexivity.
Qed.

Lemma fetch_page_live self target extract_text extract_links use_cache st html
    data :
  _enabled self = true ->
  _is_safe_url target = true ->
  page_lookup use_cache target st = None ->
  http_get (trace st) target = Response 200 html ->
  snapshot target 200 html extract_text extract_links = Ok data ->
  fetch_page self target extract_text extract_links use_cache st
  = (page_success data, cache_page target data (emit (Get target) st)).
Proof.
  intros He Hsafe Hmiss Hout Hdata. unfold fetch_page, session_get.
  unfold page_lookup in Hmiss. now rewrite He, Hsafe, Hmiss, Hout, Hdata.
Qed.

(** A page that is not served from the cache has [text] and [links]
    exactly as the two flags ask. *)
Lemma live_fetch_fields self target extract_text extract_links use_cache st :
  page_lookup use_cache target st = None ->
  p_success (fst (fetch_page self target extract_text extract_links use_cache
                    st)) = true ->
  (is_Some (p_text (fst (fetch_page self target extract_text extract_links
                           use_cache st))) <-> extract_text = true)
  /\ (is_Some (p_links (fst (fetch_page self target extract_text extract_links
                               use_cache st))) <-> extract_links = true).
Proof.
  intros Hmiss. unfold fetch_page, session_get.
  unfold page_lookup in Hmiss. rewrite Hmiss.
  destruct (_enabled self); simpl; [| discriminate].
  destruct (_is_safe_url target); simpl; [| discriminate].
  destruct (http_get (trace st) target) as [status html | | msg];
    simpl; try discriminate.
  destruct (negb (status =? 200)); simpl; [discriminate |].
  destruct (snapshot target status html extract_text extract_links)
    as [data | e] eqn:Hdata; [| destruct e; discriminate].
  destruct (snapshot_ok _ _ _ _ _ _ Hdata) as (_ & _ & _ & Htext & Hlinks).
  intros _. simpl. rewrite Htext. split.
  - destruct extract_text; split; intros Hx; try reflexivity;
      try (eexists; reflexivity); try discriminate; destruct Hx; discriminate.
  - destruct extract_links.
    + destruct Hlinks as (links & _ & ->). split; [reflexivity |].
      intros _. eexists; reflexivity.
    + rewrite Hlinks. split; intros Hx; [destruct Hx |]; discriminate.
Qed.

(** When [urljoin] resolves every anchor, the link loop keeps, in
    order, the anchors whose resolved target is safe. *)
Lemma extract_links_loop_filter base anchors joined :
  Forall2 (fun a u => urljoin base (href_of a) = Ok u) anchors joined ->
  extract_links_loop base anchors
  = Ok (List.map
          (fun au => {| link_text := tag_text (fst au); link_url := snd au |})
          (List.filter (fun au => _is_safe_url (snd au))
             (combine anchors joined))).
Proof.
  induction 1 as [| a u rest joined Hu _ IH]; simpl; [reflexivity |].
  rewrite Hu, IH. now destruct (_is_safe_url u).
Qed.

(** Without text extraction the links of a live snapshot come from
    every anchor of the page. *)
Lemma links_of_untouched_page target status html joined :
  Forall2 (fun a u => urljoin target (href_of a) = Ok u)
    (find_all_a_href (BeautifulSoup html)) joined ->
  exists data,
    snapshot target status html false true = Ok data
    /\ d_links data
       = Some (List.map
                 (fun au =>
                    {| link_text := tag_text (fst au); link_url := snd au |})
                 (List.filter (fun au => _is_safe_url (snd au))
                    (combine (find_all_a_href (BeautifulSoup html)) joined))).
Proof.
  intros Hjoined. unfold snapshot.
  rewrite (extract_links_loop_filter _ _ _ Hjoined).
  eexists. split; reflexivity.
Qed.


(** ** The gates *)

(** X1.  A disabled browser is inert: each of the four coroutines
    reports a failure, and no sequence of calls changes the store, so
    no GET is issued, no pause is taken and no cache is written. *)
Theorem disabled_browser_is_inert self calls st :
  _enabled self = false ->
  run_calls self calls st = st
  /\ (forall query engine max_results use_cache,
        s_success (fst (search self query engine max_results use_cache st))
        = false)
  /\ (forall target extract_text extract_links use_cache,
        p_success (fst (fetch_page self target extract_text extract_links
                          use_cache st)) = false)
  /\ (forall query max_pages max_depth,
        c_success (fst (collect_information self query max_pages max_depth st))
        = false)
  /\ (forall query num_iterations,
        r_success (fst (search_and_research self query num_iterations st))
        = false).
Proof.
  intros He. split.
  - unfold run_calls. revert st.
    induction calls as [| c rest IH]; intros st; simpl; [reflexivity |].
    assert (Hc : run_call self c st = st).
    { destruct c; simpl.
      - now rewrite search_disabled.
      - unfold fetch_page. now rewrite He.
      - unfold collect_information. now rewrite He.
      - unfold search_and_research. now rewrite He. }
    rewrite Hc. apply IH.
  - repeat split; intros.
    + now rewrite search_disabled.
    + unfold fetch_page. now rewrite He.
    + unfold collect_information. now rewrite He.
    + unfold search_and_research. now rewrite He.
Qed.

Lemma first_blocked_found keywords content_lower keyword :
  first_blocked keywords content_lower = Some keyword ->
  keyword ∈ keywords
  /\ PyStr.contains (PyStr.lower keyword) content_lower = true.
Proof.
  induction keywords as [| k rest IH]; simpl; [discriminate |].
  destruct (PyStr.contains (PyStr.lower k) content_lower) eqn:Hk.
  - intros [= <-]. split; [apply list_elem_of_here | exact Hk].
  - intros Hrest. destruct (IH Hrest) as [Hin Hc].
    split; [now apply list_elem_of_further | exact Hc].
Qed.

Lemma first_blocked_none keywords content_lower :
  first_blocked keywords content_lower = None ->
  forall keyword,
    keyword ∈ keywords ->
    PyStr.contains (PyStr.lower keyword) content_lower = false.
Proof.
  induction keywords as [| k rest IH]; simpl; intros Hnone keyword Hin.
  - inversion Hin.
  - destruct (PyStr.contains (PyStr.lower k) content_lower) eqn:Hk;
      [discriminate |].
    apply elem_of_cons in Hin as [-> | Hin]; [exact Hk | now apply IH].
Qed.

Lemma content_check_refuses sec content keyword :
  content_filter_enabled sec = true ->
  keyword ∈ _blocked_keywords sec ->
  PyStr.contains (PyStr.lower keyword) (PyStr.lower content) = true ->
  fst (check_content_safety sec content) = false.
Proof.
  intros Hen Hin Hc. unfold check_content_safety. rewrite Hen. simpl.
  destruct (first_blocked (_blocked_keywords sec) (PyStr.lower content))
    eqn:Hf; [reflexivity |].
  now rewrite (first_blocked_none _ _ Hf keyword Hin) in Hc.
Qed.

(** X2.  [check_content_safety] refuses a text exactly when the filter
    is enabled and some blocked keyword, lower-cased, occurs in the
    lower-cased text, whatever [str.lower] makes of the two: the verdict
    reads the keywords and the text through [str.lower] only, and does
    not depend on the order of the keywords.  A refusal names a blocked
    keyword that occurs. *)
Theorem content_verdict sec content :
  (fst (check_content_safety sec content) = false
   <-> content_filter_enabled sec = true
       /\ exists keyword,
            keyword ∈ _blocked_keywords sec
            /\ PyStr.contains (PyStr.lower keyword) (PyStr.lower content)
               = true)
  /\ (fst (check_content_safety sec content) = false ->
      exists keyword,
        keyword ∈ _blocked_keywords sec
        /\ PyStr.contains (PyStr.lower keyword) (PyStr.lower content) = true
        /\ snd (check_content_safety sec content)
           = ("内容包含违禁关键词: " ++ keyword)%string).
Proof.
  unfold check_content_safety.
  destruct (content_filter_enabled sec); simpl.
  - destruct (first_blocked (_blocked_keywords sec) (PyStr.lower content))
      as [keyword |] eqn:Hf; simpl.
    + destruct (first_blocked_found _ _ _ Hf) as [Hin Hc].
      split; [split; [eauto | reflexivity] | eauto].
    + split; [| discriminate].
      split; [discriminate |].
      intros (_ & keyword & Hin & Hc).
      now rewrite (first_blocked_none _ _ Hf keyword Hin) in Hc.
  - split; [| discriminate]. split; [discriminate | intros [Hd _]; discriminate].
Qed.

(** X3.  A query in whose lower-cased text a blocked keyword,
    lower-cased by [str.lower], occurs never reaches the network:
    [search] returns the failure [内容安全检查失败] with the reason of
    the content check, [collect_information] hands that dictionary on,
    and [search_and_research] stops before its first round completes
    yet reports success with no iterations; none of them changes the
    store. *)
Theorem blocked_query_stops_at_the_gate self query keyword st :
  _enabled self = true ->
  content_filter_enabled (_security self) = true ->
  keyword ∈ _blocked_keywords (_security self) ->
  PyStr.contains (PyStr.lower keyword) (PyStr.lower query) = true ->
  let refusal :=
    search_failure "内容安全检查失败"
      (Some (snd (check_content_safety (_security self) query))) in
  (forall engine max_results use_cache,
     search self query engine max_results use_cache st = (refusal, st))
  /\ (forall max_pages max_depth,
        collect_information self query max_pages max_depth st
        = (CollectFailure refusal, st))
  /\ (forall num_iterations,
        0 < num_iterations ->
        search_and_research self query num_iterations st
        = ({| r_success := true; r_error := None;
              r_original_query := Some query; r_iterations := Some 0;
              r_results := Some []; r_total_sources := Some 0 |}, st)).
Proof.
  intros He Hen Hin Hc refusal.
  assert (Hv : fst (check_content_safety (_security self) query) = false).
  { now apply (content_check_refuses _ _ keyword). }
  assert (Hs : forall engine max_results use_cache,
            search self query engine max_results use_cache st = (refusal, st)).
  { intros. now apply search_content_rejected. }
  assert (Hcol : forall max_pages max_depth,
            collect_information self query max_pages max_depth st
            = (CollectFailure refusal, st)).
  { intros. unfold collect_information. rewrite He. simpl. now rewrite Hs. }
  split; [exact Hs | split; [exact Hcol |]].
  intros n Hn. unfold search_and_research. rewrite He. simpl.
  unfold range. destruct (Z.to_nat n) as [| m] eqn:Hm; [lia |].
  simpl. now rewrite Hcol.
Qed.


(** ** What [search] reads, writes and requests *)

Lemma fetch_search_results_visited self target max_results engine st :
  _visited_urls (snd (_fetch_search_results self target max_results engine st))
  = _visited_urls st.
Proof.
  destruct (fetch_search_results_effect self target max_results engine st)
    as (Hv & _). exact Hv.
Qed.

Lemma search_visited self query engine max_results use_cache st :
  _visited_urls (snd (search self query engine max_results use_cache st))
  = _visited_urls st.
Proof.
  destruct (_enabled self) eqn:He;
    [| now rewrite search_disabled by assumption].
  destruct (fst (check_content_safety (_security self) query)) eqn:Hc;
    [| now rewrite search_content_rejected by assumption].
  destruct (cache_lookup use_cache (cache_key engine query) st) eqn:Hl.
  - now rewrite (search_hit _ _ _ _ _ _ _ He Hc Hl).
  - rewrite (search_live _ _ _ _ _ _ He Hc Hl). simpl.
    apply fetch_search_results_visited.
Qed.

(** X4.  [search] writes through its own cache entry and nothing else:
    the page cache and every other search entry are as before, and
    after a successful search, live or cached, the entry of its key
    holds exactly the results it returned; a refused search leaves the
    entry alone. *)
Theorem search_writes_its_own_entry self query engine max_results use_cache st :
  let out := search self query engine max_results use_cache st in
  _visited_urls (snd out) = _visited_urls st
  /\ (forall key,
        key <> cache_key engine query ->
        _search_cache (snd out) !! key = _search_cache st !! key)
  /\ _search_cache (snd out) !! cache_key engine query
     = if s_success (fst out) then s_results (fst out)
       else _search_cache st !! cache_key engine query.
Proof.
  simpl. split; [apply search_visited |].
  destruct (_enabled self) eqn:He;
    [| rewrite search_disabled by assumption; auto].
  destruct (fst (check_content_safety (_security self) query)) eqn:Hc;
    [| rewrite search_content_rejected by assumption; auto].
  destruct (cache_lookup use_cache (cache_key engine query) st) eqn:Hl.
  - rewrite (search_hit _ _ _ _ _ _ _ He Hc Hl). simpl.
    split; [reflexivity |].
    unfold cache_lookup in Hl. destruct use_cache; [exact Hl | discriminate].
  - rewrite (search_live _ _ _ _ _ _ He Hc Hl). simpl.
    rewrite fetch_search_results_search_cache. split.
    + intros key Hkey. now rewrite lookup_insert_ne.
    + apply lookup_insert_eq.
Qed.

Lemma retry_events_targets self target before attempt added :
  retry_events self target before attempt added ->
  forall t, Get t ∈ added -> t = target.
Proof.
  induction 1 as [| before attempt rest _ _ IH
                  | before attempt rest _ _ _ IH
                  | before attempt rest _ _ _ IH]; intros t Hin.
  - inversion Hin.
  - apply elem_of_cons in Hin as [[= ->] | Hin]; [reflexivity | now apply IH].
  - apply elem_of_cons in Hin as [[= ->] | Hin]; [reflexivity |].
    apply elem_of_cons in Hin as [Heq | Hin]; [discriminate | now apply IH].
  - apply elem_of_cons in Hin as [[= ->] | Hin]; [reflexivity | now apply IH].
Qed.

Lemma has_char_app c s1 s2 :
  PyStr.has_char c (s1 ++ s2) = PyStr.has_char c s1 || PyStr.has_char c s2.
Proof.
  induction s1 as [| d r IH]; simpl; [reflexivity |].
  now rewrite IH, orb_assoc.
Qed.

Lemma replace_char_removes a b s :
  a <> b -> PyStr.has_char a (PyStr.replace_char a b s) = false.
Proof.
  intros Hab. induction s as [| c r IH]; simpl; [reflexivity |].
  rewrite IH, orb_false_r.
  destruct (Ascii.eqb c a) eqn:Hca.
  - now apply Ascii.eqb_neq.
  - rewrite Ascii.eqb_sym. exact Hca.
Qed.

Lemma known_engine_template engine template :
  dict_get engine SEARCH_ENGINES = Some template ->
  (engine, template) ∈ SEARCH_ENGINES.
Proof.
  unfold SEARCH_ENGINES. cbn [dict_get].
  destruct (String.eqb "google" engine) eqn:E1;
    [apply String.eqb_eq in E1; subst engine; intros [= <-]; compute_done |].
  destruct (String.eqb "bing" engine) eqn:E2;
    [apply String.eqb_eq in E2; subst engine; intros [= <-]; compute_done |].
  destruct (String.eqb "baidu" engine) eqn:E3;
    [apply String.eqb_eq in E3; subst engine; intros [= <-]; compute_done |].
  destruct (String.eqb "duckduckgo" engine) eqn:E4;
    [apply String.eqb_eq in E4; subst engine; intros [= <-]; compute_done |].
  discriminate.
Qed.

(** X5.  Every GET that one call of [search] issues is for one URL: the
    template of the engine, Baidu's for an engine that is not in
    [SEARCH_ENGINES], followed by the query with each space turned into
    [+]; this URL has no space, and nothing else of the query is
    encoded. *)
Theorem search_requests_one_url self query engine max_results use_cache st :
  (exists template,
     (effective_engine engine, template) ∈ SEARCH_ENGINES
     /\ search_url query engine
        = (template ++ PyStr.replace_char " " "+" query)%string)
  /\ (engine ∉ List.map fst SEARCH_ENGINES -> effective_engine engine = "baidu")
  /\ PyStr.has_char " " (search_url query engine) = false
  /\ exists added,
       trace (snd (search self query engine max_results use_cache st))
       = (trace st ++ added)%list
       /\ forall t, Get t ∈ added -> t = search_url query engine.
Proof.
  assert (Htemplate : exists template,
            (effective_engine engine, template) ∈ SEARCH_ENGINES
            /\ search_url query engine
               = (template ++ PyStr.replace_char " " "+" query)%string).
  { unfold search_url, effective_engine.
    destruct (dict_get engine SEARCH_ENGINES) as [template |] eqn:Hd.
    - exists template. rewrite Hd. split; [| reflexivity].
      now apply known_engine_template.
    - exists "https://www.baidu.com/s?wd=". split; [compute_done | reflexivity]. }
  split; [exact Htemplate | split; [| split]].
  - intros Hunknown. unfold effective_engine.
    destruct (dict_get engine SEARCH_ENGINES) as [template |] eqn:Hd;
      [| reflexivity].
    exfalso. apply Hunknown. apply known_engine_template in Hd.
    apply list_elem_of_In. apply list_elem_of_In in Hd.
    now apply (in_map fst) in Hd.
  - destruct Htemplate as (template & Hin & ->).
    rewrite has_char_app, replace_char_removes by discriminate.
    rewrite orb_false_r.
    unfold SEARCH_ENGINES in Hin.
    repeat (apply elem_of_cons in Hin as [[= _ ->] | Hin]; [reflexivity |]).
    inversion Hin.
  - assert (Hnone : exists added,
              trace st = (trace st ++ added)%list
              /\ forall t, Get t ∈ added -> t = search_url query engine).
    { exists []. rewrite app_nil_r. split; [reflexivity |].
      intros t Hin. inversion Hin. }
    destruct (_enabled self) eqn:He;
      [| now rewrite search_disabled by assumption].
    destruct (fst (check_content_safety (_security self) query)) eqn:Hc;
      [| now rewrite search_content_rejected by assumption].
    destruct (cache_lookup use_cache (cache_key engine query) st) eqn:Hl.
    + now rewrite (search_hit _ _ _ _ _ _ _ He Hc Hl).
    + rewrite (search_live _ _ _ _ _ _ He Hc Hl). simpl.
      destruct (fetch_search_results_effect self (search_url query engine)
                  max_results (effective_engine engine) st)
        as (_ & _ & added & Htr & _ & Hev).
      exists added. split; [exact Htr |].
      now apply (retry_events_targets _ _ _ _ _ Hev).
Qed.


(** ** The result parsers *)

Lemma length_omap_le {A B} (f : A -> option B) (l : list A) :
  (length (omap f l) <= length l)%nat.
Proof.
  induction l as [| x l IH]; csimpl; [lia |].
  destruct (f x); csimpl; lia.
Qed.

Lemma Forall_omap {A B} (f : A -> option B) (P : B -> Prop) (l : list A) :
  (forall x y, f x = Some y -> P y) -> Forall P (omap f l).
Proof.
  intros Hf. induction l as [| x l IH]; csimpl; [constructor |].
  destruct (f x) as [y |] eqn:Hx; csimpl; [constructor; eauto | exact IH].
Qed.

Lemma generic_loop_bound max_results links :
  forall results,
    Z.of_nat (length results) < max_results ->
    Z.of_nat (length (generic_loop max_results links results)) <= max_results.
Proof.
  induction links as [| link rest IH]; intros results Hlt; simpl; [lia |].
  destruct (_ && _); [| now apply IH].
  destruct (_ && _); [| now apply IH].
  destruct (max_results <=? _) eqn:Hfull.
  - rewrite length_app. cbn [length]. lia.
  - apply IH. apply Z.leb_gt in Hfull. exact Hfull.
Qed.

Lemma parse_results_length engine doc max_results :
  0 <= max_results ->
  Z.of_nat (length (parse_results engine doc max_results)) <= max_results.
Proof.
  intros Hn.
  assert (Hitems : forall (f : element -> option SearchResult) items,
            Z.of_nat (length (omap f (slice_to max_results items)))
            <= max_results).
  { intros f items.
    pose proof (length_omap_le f (slice_to max_results items)).
    pose proof (length_slice_to max_results items Hn). lia. }
  unfold parse_results.
  destruct (String.eqb engine "baidu"); [apply Hitems |].
  destruct (String.eqb engine "google"); [apply Hitems |].
  destruct (String.eqb engine "bing"); [apply Hitems |].
  unfold _parse_generic_results.
  destruct (Z.eq_dec max_results 0) as [-> | Hpos].
  - unfold slice_to. simpl. lia.
  - apply generic_loop_bound. simpl. lia.
Qed.

(** X6.  Every parsing strategy returns at most [max_results] results
    for [0 <= max_results], however many result blocks or links the
    page has. *)
Theorem parse_results_bounded engine doc max_results :
  0 <= max_results ->
  Z.of_nat (length (parse_results engine doc max_results)) <= max_results.
Proof. apply parse_results_length. Qed.

Lemma generic_loop_Forall (P : SearchResult -> Prop) max_results links :
  (forall link,
     PyStr.startswith "http" (href_of link) = true ->
     existsb (fun excluded => PyStr.contains excluded (href_of link))
       ["google.com"; "bing.com"; "baidu.com"] = false ->
     String.eqb (tag_text link) "" = false ->
     3 < Z.of_nat (PyStr.len (tag_text link)) ->
     P {| title := tag_text link; url := href_of link; description := "";
          source := "generic" |}) ->
  forall results,
    Forall P results -> Forall P (generic_loop max_results links results).
Proof.
  intros Hkeep. induction links as [| link rest IH]; intros results Hres;
    cbn [generic_loop]; [exact Hres |].
  destruct (PyStr.startswith "http" (href_of link)) eqn:Hhttp; cbn [andb];
    [| now apply IH].
  destruct (existsb (fun excluded => PyStr.contains excluded (href_of link))
              ["google.com"; "bing.com"; "baidu.com"]) eqn:Hex;
    cbn [negb]; [now apply IH |].
  destruct (String.eqb (tag_text link) "") eqn:Hempty; cbn [negb andb];
    [now apply IH |].
  destruct (3 <? Z.of_nat (PyStr.len (tag_text link))) eqn:Hlen;
    [| now apply IH].
  apply Z.ltb_lt in Hlen.
  assert (Hnew : Forall P
            (results ++ [ {| title := tag_text link; url := href_of link;
                             description := ""; source := "generic" |} ])).
  { apply Forall_app. split; [exact Hres |]. constructor; [| constructor].
    now apply Hkeep. }
  destruct (max_results <=? _); [exact Hnew | now apply IH].
Qed.

(** X7.  Every result carries the tag of the strategy that made it:
    the engine's name for Baidu, Google and Bing, [generic] for any
    other engine.  A result of the generic strategy has an empty
    description, a URL that starts with [http] and contains none of
    [google.com], [bing.com], [baidu.com], and a title of more than
    three characters. *)
Theorem parse_results_tagged engine doc max_results :
  (engine ∈ ["baidu"; "google"; "bing"] ->
   Forall (fun r => source r = engine) (parse_results engine doc max_results))
  /\ (engine ∉ ["baidu"; "google"; "bing"] ->
      Forall
        (fun r =>
           source r = "generic" /\ description r = ""
           /\ PyStr.startswith "http" (url r) = true
           /\ (forall host,
                 host ∈ ["google.com"; "bing.com"; "baidu.com"] ->
                 PyStr.contains host (url r) = false)
           /\ 3 < Z.of_nat (PyStr.len (title r)))
        (parse_results engine doc max_results)).
Proof.
  split.
  - intros Hin. unfold parse_results.
    repeat (apply elem_of_cons in Hin as [-> | Hin]);
      [| | | inversion Hin]; simpl;
      apply Forall_omap; intros item r.
    + unfold baidu_item. destruct (or_else _ _); [| discriminate].
      now intros [= <-].
    + unfold google_item.
      destruct (select_one [by_tag "h3"] item); [| discriminate].
      destruct (select_one [by_tag "a"] item); [| discriminate].
      now intros [= <-].
    + unfold bing_item. destruct (select_one _ item); [| discriminate].
      now intros [= <-].
  - intros Hother. unfold parse_results.
    destruct (String.eqb engine "baidu") eqn:E1;
      [apply String.eqb_eq in E1; subst; exfalso; apply Hother; set_solver |].
    destruct (String.eqb engine "google") eqn:E2;
      [apply String.eqb_eq in E2; subst; exfalso; apply Hother; set_solver |].
    destruct (String.eqb engine "bing") eqn:E3;
      [apply String.eqb_eq in E3; subst; exfalso; apply Hother; set_solver |].
    unfold _parse_generic_results.
    apply generic_loop_Forall; [| constructor].
    intros link Hhttp Hex _ Hlen. simpl.
    repeat split; try assumption.
    intros host Hhost.
    simpl in Hex. rewrite orb_false_r in Hex.
    apply orb_false_elim in Hex as [Hg Hex].
    apply orb_false_elim in Hex as [Hb Hd].
    repeat (apply elem_of_cons in Hhost as [-> | Hhost]); try assumption.
    inversion Hhost.
Qed.


(** ** The page cache *)

(** The two ways in which [fetch_page] succeeds. *)
Lemma fetch_page_success_cases self target extract_text extract_links use_cache
    st :
  p_success (fst (fetch_page self target extract_text extract_links use_cache
                    st)) = true ->
  _enabled self = true /\ _is_safe_url target = true
  /\ ((exists data,
         page_lookup use_cache target st = Some data
         /\ fetch_page self target extract_text extract_links use_cache st
            = (page_cached data, st))
      \/ (exists html data,
            page_lookup use_cache target st = None
            /\ http_get (trace st) target = Response 200 html
            /\ snapshot target 200 html extract_text extract_links = Ok data
            /\ fetch_page self target extract_text extract_links use_cache st
               = (page_success data,
                  cache_page target data (emit (Get target) st)))).
Proof.
  unfold fetch_page, session_get, page_lookup.
  destruct (_enabled self); simpl; [| discriminate].
  destruct (_is_safe_url target); simpl; [| discriminate].
  destruct (if use_cache then _visited_urls st !! target else None)
    as [data |]; simpl.
  - intros _. split; [reflexivity | split; [reflexivity |]]. left. eauto.
  - destruct (http_get (trace st) target) as [status html | | msg];
      simpl; try discriminate.
    destruct (negb (status =? 200)) eqn:Hst; simpl; [discriminate |].
    apply negb_false_iff, Z.eqb_eq in Hst. subst status.
    destruct (snapshot target 200 html extract_text extract_links)
      as [data | e] eqn:Hdata; [| destruct e; discriminate].
    intros _. split; [reflexivity | split; [reflexivity |]]. right.
    exists html, data. auto.
Qed.

(** X8.  A page that [fetch_page] returned with success is served from
    the cache afterwards: the next call for the same URL with
    [use_cache=true], whatever its flags, returns the same [url],
    [status], [content_length], [text] and [links] with [cached: true],
    and leaves the store as it was, so it issues no GET. *)
Theorem fetched_page_is_served_from_cache self target extract_text
    extract_links use_cache extract_text' extract_links' st :
  let first :=
    fetch_page self target extract_text extract_links use_cache st in
  p_success (fst first) = true ->
  let second :=
    fetch_page self target extract_text' extract_links' true (snd first) in
  snd second = snd first
  /\ p_success (fst second) = true
  /\ p_cached (fst second) = Some true
  /\ p_url (fst second) = p_url (fst first)
  /\ p_status (fst second) = p_status (fst first)
  /\ p_content_length (fst second) = p_content_length (fst first)
  /\ p_text (fst second) = p_text (fst first)
  /\ p_links (fst second) = p_links (fst first).
Proof.
  intros first Hok.
  destruct (fetch_page_success_cases _ _ _ _ _ _ Hok)
    as (He & Hsafe
        & [(data & Hl & Hrun) | (html & data & Hl & Hout & Hdata & Hrun)]);
    subst first; rewrite Hrun; simpl.
  - unfold page_lookup in Hl. destruct use_cache; [| discriminate].
    rewrite (fetch_page_hit _ _ _ _ _ data He Hsafe Hl). simpl.
    repeat split; reflexivity.
  - rewrite (fetch_page_hit _ _ _ _ _ data He Hsafe).
    + simpl. repeat split; reflexivity.
    + simpl. apply lookup_insert_eq.
Qed.

(** X9.  One call of [fetch_page] makes a single attempt: it adds
    nothing to the log or exactly one GET of the requested URL, and
    never a pause.  It leaves the search cache and the page entries of
    all other URLs alone, and a call that fails writes no entry at
    all. *)
Theorem fetch_page_single_attempt self target extract_text extract_links
    use_cache st :
  let out := fetch_page self target extract_text extract_links use_cache st in
  (trace (snd out) = trace st
   \/ trace (snd out) = (trace st ++ [Get target])%list)
  /\ _search_cache (snd out) = _search_cache st
  /\ (forall key,
        key <> target ->
        _visited_urls (snd out) !! key = _visited_urls st !! key)
  /\ (p_success (fst out) = false ->
      _visited_urls (snd out) = _visited_urls st).
Proof.
  simpl. unfold fetch_page, session_get.
  destruct (_enabled self); simpl; [| auto].
  destruct (_is_safe_url target); simpl; [| auto].
  destruct (if use_cache then _visited_urls st !! target else None);
    simpl; [split; [auto | split; [auto | split; [auto | discriminate]]] |].
  destruct (http_get (trace st) target) as [status html | | msg];
    simpl; [| auto | auto].
  destruct (negb (status =? 200)); simpl; [auto |].
  destruct (snapshot target status html extract_text extract_links)
    as [data | e]; [| destruct e; simpl; auto].
  simpl. split; [auto | split; [auto | split; [| discriminate]]].
  intros key Hkey. now rewrite lookup_insert_ne.
Qed.

Lemma fetch_page_failure_visited self target extract_text extract_links
    use_cache st :
  p_success (fst (fetch_page self target extract_text extract_links use_cache
                    st)) = false ->
  _visited_urls (snd (fetch_page self target extract_text extract_links
                        use_cache st))
  = _visited_urls st.
Proof.
  unfold fetch_page, session_get.
  destruct (_enabled self); simpl; [| reflexivity].
  destruct (_is_safe_url target); simpl; [| reflexivity].
  destruct (if use_cache then _visited_urls st !! target else None);
    simpl; [discriminate |].
  destruct (http_get (trace st) target) as [status html | | msg];
    simpl; try reflexivity.
  destruct (negb (status =? 200)); simpl; [reflexivity |].
  destruct (snapshot target status html extract_text extract_links)
    as [data | e]; [discriminate | destruct e; reflexivity].
Qed.

Lemma extract_links_loop_safe base anchors :
  forall links,
    extract_links_loop base anchors = Ok links ->
    Forall (fun l => _is_safe_url (link_url l) = true) links.
Proof.
  induction anchors as [| a rest IH]; simpl; intros links.
  - intros [= <-]. constructor.
  - destruct (urljoin base (href_of a)) as [full_url | e]; [| discriminate].
    destruct (extract_links_loop base rest) as [found | e]; [| discriminate].
    intros [= <-]. specialize (IH found eq_refl).
    destruct (_is_safe_url full_url) eqn:Hs; [| exact IH].
    constructor; [exact Hs | exact IH].
Qed.

Lemma snapshot_sound target html extract_text extract_links data :
  _is_safe_url target = true ->
  snapshot target 200 html extract_text extract_links = Ok data ->
  sound_snapshot target data.
Proof.
  intros Hsafe Hdata.
  destruct (snapshot_ok _ _ _ _ _ _ Hdata)
    as (Hurl & Hstatus & Hlen & _ & Hlinks).
  unfold sound_snapshot. rewrite Hurl, Hstatus, Hlen.
  repeat split; try assumption; [lia |].
  intros links. destruct extract_links.
  - destruct Hlinks as (found & Hloop & ->). intros [= <-].
    now apply (extract_links_loop_safe _ _ _ Hloop).
  - rewrite Hlinks. discriminate.
Qed.

Lemma fetch_page_well_cached self target extract_text extract_links use_cache
    st :
  well_cached st ->
  well_cached (snd (fetch_page self target extract_text extract_links
                      use_cache st)).
Proof.
  intros Hwc.
  destruct (p_success (fst (fetch_page self target extract_text extract_links
                              use_cache st))) eqn:Hok.
  - destruct (fetch_page_success_cases _ _ _ _ _ _ Hok)
      as (He & Hsafe
          & [(data & Hl & Hrun) | (html & data & Hl & Hout & Hdata & Hrun)]);
      rewrite Hrun; simpl; [exact Hwc |].
    intros key stored. unfold cache_page. simpl.
    destruct (decide (key = target)) as [-> | Hne].
    + rewrite lookup_insert_eq. intros [= <-].
      now apply (snapshot_sound _ _ _ _ _ Hsafe Hdata).
    + rewrite lookup_insert_ne by congruence. apply Hwc.
  - intros key data.
    rewrite (fetch_page_failure_visited _ _ _ _ _ _ Hok). apply Hwc.
Qed.


(** ** Visiting the search results *)

Lemma pauses_app l1 l2 : pauses (l1 ++ l2) = (pauses l1 + pauses l2)%nat.
Proof. unfold pauses. now rewrite List.filter_app, length_app. Qed.

Lemma pauses_sleep d st : pauses (trace (sleep d st)) = S (pauses (trace st)).
Proof. simpl. rewrite pauses_app. unfold pauses at 2. simpl. lia. Qed.

Lemma fetch_page_counts self target extract_text extract_links use_cache st :
  (gets (trace (snd (fetch_page self target extract_text extract_links
                       use_cache st))) <= S (gets (trace st)))%nat
  /\ (gets (trace st)
      <= gets (trace (snd (fetch_page self target extract_text extract_links
                             use_cache st))))%nat
  /\ pauses (trace (snd (fetch_page self target extract_text extract_links
                           use_cache st)))
     = pauses (trace st).
Proof.
  unfold fetch_page, session_get.
  destruct (_enabled self); simpl; [| lia].
  destruct (_is_safe_url target); simpl; [| lia].
  destruct (if use_cache then _visited_urls st !! target else None);
    simpl; [lia |].
  assert (Hg : gets (trace st ++ [Get target]) = S (gets (trace st))).
  { rewrite gets_app. unfold gets at 2. simpl. lia. }
  assert (Hp : pauses (trace st ++ [Get target]) = pauses (trace st)).
  { rewrite pauses_app. unfold pauses at 2. simpl. lia. }
  destruct (http_get (trace st) target) as [status html | | msg];
    simpl; [| lia | lia].
  destruct (negb (status =? 200)); simpl; [lia |].
  destruct (snapshot target status html extract_text extract_links)
    as [data | e]; [| destruct e]; simpl; lia.
Qed.

Lemma visit_results_well_cached self todo :
  forall collected_info st,
    well_cached st ->
    well_cached (snd (visit_results self todo collected_info st)).
Proof.
  induction todo as [| result rest IH]; intros collected_info st Hwc; simpl;
    [exact Hwc |].
  destruct (String.eqb (url result) ""); [now apply IH |].
  pose proof (fetch_page_well_cached self (url result) true false true st Hwc)
    as Hf.
  destruct (fetch_page self (url result) true false true st)
    as [page_result st1].
  apply IH. intros key data. simpl. apply Hf.
Qed.

(** What the loop collects: one entry at most for each result, in
    order, made from a result with a URL that [_is_safe_url] accepts. *)
Lemma visit_results_collects self todo :
  forall collected_info st,
    exists fresh,
      fst (visit_results self todo collected_info st)
      = (collected_info ++ fresh)%list
      /\ (length fresh <= length todo)%nat
      /\ Forall
           (fun info =>
              exists result,
                result ∈ todo
                /\ source_url info = url result
                /\ source_title info = title result
                /\ source_description info = description result
                /\ url result <> ""
                /\ _is_safe_url (url result) = true)
           fresh.
Proof.
  induction todo as [| result rest IH]; intros collected_info st; simpl.
  - exists []. rewrite app_nil_r.
    split; [reflexivity | split; [simpl; lia | constructor]].
  - assert (Hweaken : forall fresh : list CollectedInfo,
              Forall
                (fun info =>
                   exists r,
                     r ∈ rest /\ source_url info = url r
                     /\ source_title info = title r
                     /\ source_description info = description r
                     /\ url r <> "" /\ _is_safe_url (url r) = true) fresh ->
              Forall
                (fun info =>
                   exists r,
                     r ∈ result :: rest /\ source_url info = url r
                     /\ source_title info = title r
                     /\ source_description info = description r
                     /\ url r <> "" /\ _is_safe_url (url r) = true) fresh).
    { intros fresh Hfresh. eapply Forall_impl; [exact Hfresh |].
      intros info (r & Hin & Hrest). exists r.
      split; [now apply list_elem_of_further | exact Hrest]. }
    destruct (String.eqb (url result) "") eqn:Hurl.
    + destruct (IH collected_info st) as (fresh & Heq & Hlen & Hall).
      exists fresh. split; [exact Heq | split; [lia | now apply Hweaken]].
    + apply String.eqb_neq in Hurl.
      destruct (fetch_page self (url result) true false true st)
        as [page_result st1] eqn:Hfetch.
      destruct (p_success page_result) eqn:Hok.
      * assert (Hsafe : _is_safe_url (url result) = true).
        { pose proof (fetch_page_success_cases self (url result) true false
                        true st) as Hcases.
          rewrite Hfetch in Hcases. now destruct (Hcases Hok) as (_ & Hs & _). }
        match goal with
        | |- context [visit_results self rest (collected_info ++ [?i]) ?s] =>
            destruct (IH (collected_info ++ [i])%list s)
              as (fresh & Heq & Hlen & Hall);
            exists (i :: fresh)
        end.
        split; [rewrite Heq, <- app_assoc; reflexivity |].
        split; [simpl; lia |].
        constructor; [| now apply Hweaken].
        exists result. simpl.
        repeat split; try assumption; try reflexivity. apply list_elem_of_here.
      * match goal with
        | |- context [visit_results self rest collected_info ?s] =>
            destruct (IH collected_info s) as (fresh & Heq & Hlen & Hall)
        end.
        exists fresh. split; [exact Heq | split; [lia | now apply Hweaken]].
Qed.

Lemma visit_results_gets self todo :
  forall collected_info st,
    (gets (trace (snd (visit_results self todo collected_info st)))
     <= gets (trace st) + length todo)%nat.
Proof.
  induction todo as [| result rest IH]; intros collected_info st; simpl;
    [lia |].
  destruct (String.eqb (url result) "").
  - pose proof (IH collected_info st). lia.
  - pose proof (fetch_page_counts self (url result) true false true st)
      as (Hg1 & _).
    destruct (fetch_page self (url result) true false true st)
      as [page_result st1].
    simpl in Hg1.
    match goal with
    | |- context [visit_results self rest ?c (sleep (1 # 2) st1)] =>
        pose proof (IH c (sleep (1 # 2) st1)) as Hg
    end.
    rewrite gets_sleep in Hg. lia.
Qed.

(** X10.  The loop of [collect_information] over the search results
    issues at most one GET for each result that has a URL and pauses
    half a second once after each of them, whether its page was fetched
    or not; a result without URL costs neither a GET nor a pause. *)
Theorem visit_results_pacing self todo :
  forall collected_info st,
    let with_url := List.filter (fun r => negb (String.eqb (url r) "")) todo in
    let out := visit_results self todo collected_info st in
    (gets (trace (snd out)) <= gets (trace st) + length with_url)%nat
    /\ pauses (trace (snd out)) = (pauses (trace st) + length with_url)%nat
    /\ forall d, Sleep d ∈ trace (snd out) -> Sleep d ∈ trace st \/ d = 1 # 2.
Proof.
  induction todo as [| result rest IH]; intros collected_info st; simpl.
  - split; [lia | split; [lia | auto]].
  - destruct (String.eqb (url result) "") eqn:Hurl; simpl.
    + destruct (IH collected_info st) as (Hg & Hp & Hs). simpl in *.
      split; [lia | split; [exact Hp | exact Hs]].
    + pose proof (fetch_page_counts self (url result) true false true st)
        as (Hg1 & _ & Hp1).
      assert (Hs1 : forall d,
                Sleep d ∈ trace (snd (fetch_page self (url result) true false
                                        true st)) -> Sleep d ∈ trace st).
      { intros d.
        unfold fetch_page, session_get.
        destruct (_enabled self); simpl; [| auto].
        destruct (_is_safe_url (url result)); simpl; [| auto].
        destruct (_visited_urls st !! url result); simpl; [auto |].
        assert (Hin : Sleep d ∈ (trace st ++ [Get (url result)])%list ->
                      Sleep d ∈ trace st).
        { intros Hin. apply elem_of_app in Hin as [Hin | Hin]; [exact Hin |].
          apply elem_of_cons in Hin as [Heq | Hin]; [discriminate |].
          inversion Hin. }
        destruct (http_get (trace st) (url result)) as [status html | | msg];
          simpl; [| exact Hin | exact Hin].
        destruct (negb (status =? 200)); simpl; exact Hin. }
      destruct (fetch_page self (url result) true false true st)
        as [page_result st1].
      simpl in Hg1, Hp1, Hs1.
      match goal with
      | |- context [visit_results self rest ?c (sleep (1 # 2) st1)] =>
          destruct (IH c (sleep (1 # 2) st1)) as (Hg & Hp & Hs)
      end.
      cbv zeta in Hg, Hp. simpl in Hs.
      rewrite gets_sleep in Hg. rewrite pauses_sleep in Hp.
      split; [lia | split; [lia |]].
      intros d Hd. destruct (Hs d Hd) as [Hin | Heq]; [| auto].
      apply elem_of_app in Hin as [Hin | Hin]; [left; now apply Hs1 |].
      apply elem_of_cons in Hin as [[= ->] | Hin]; [auto | inversion Hin].
Qed.


(** ** The page cache stays sound *)

Lemma search_well_cached self query engine max_results use_cache st :
  well_cached st ->
  well_cached (snd (search self query engine max_results use_cache st)).
Proof.
  intros Hwc key data. rewrite search_visited. apply Hwc.
Qed.

Lemma collect_information_well_cached self query max_pages max_depth st :
  well_cached st ->
  well_cached (snd (collect_information self query max_pages max_depth st)).
Proof.
  intros Hwc. unfold collect_information.
  destruct (_enabled self); simpl; [| exact Hwc].
  pose proof (search_well_cached self query "baidu" max_pages true st Hwc)
    as Hs.
  destruct (search self query "baidu" max_pages true st)
    as [search_result st1].
  simpl in Hs.
  destruct (negb (s_success search_result)); [exact Hs |].
  destruct (s_results search_result) as [search_results |]; [| exact Hs].
  pose proof (visit_results_well_cached self
                (slice_to max_pages search_results) [] st1 Hs) as Hv.
  destruct (visit_results _ _ _ _) as [collected_info st2]. exact Hv.
Qed.

Lemma research_loop_well_cached self query num_iterations rounds :
  forall all_results current_query st,
    well_cached st ->
    well_cached (snd (research_loop self query num_iterations rounds
                        all_results current_query st)).
Proof.
  induction rounds as [| i rest IH]; intros all_results current_query st Hwc;
    simpl; [exact Hwc |].
  pose proof (collect_information_well_cached self current_query 3 1 st Hwc)
    as Hc.
  destruct (collect_information self current_query 3 1 st) as [result st1].
  simpl in Hc.
  destruct (negb (c_success result)); [exact Hc |].
  apply IH. intros key data. simpl. apply Hc.
Qed.

Lemma run_call_well_cached self c st :
  well_cached st -> well_cached (run_call self c st).
Proof.
  intros Hwc. destruct c; simpl.
  - now apply search_well_cached.
  - now apply fetch_page_well_cached.
  - now apply collect_information_well_cached.
  - unfold search_and_research.
    destruct (_enabled self); simpl; [| exact Hwc].
    pose proof (research_loop_well_cached self query num_iterations
                  (range num_iterations) [] query st Hwc) as Hr.
    destruct (research_loop _ _ _ _ _ _ _). exact Hr.
Qed.

Lemma run_calls_well_cached self calls :
  forall st, well_cached st -> well_cached (run_calls self calls st).
Proof.
  unfold run_calls.
  induction calls as [| c rest IH]; intros st Hwc; simpl; [exact Hwc |].
  apply IH. now apply run_call_well_cached.
Qed.

Lemma new_store_well_cached : well_cached new_store.
Proof. intros key data. unfold new_store. simpl. now rewrite lookup_empty. Qed.

(** X11.  Whatever calls are made on a fresh browser, the page cache
    only ever holds snapshots of URLs that [_is_safe_url] accepts, each
    under its own URL, with status 200, a length that is not negative
    and links that are all safe. *)
Theorem page_cache_stays_sound self calls :
  well_cached (run_calls self calls new_store).
Proof. apply run_calls_well_cached, new_store_well_cached. Qed.

Lemma sound_cache_success_is_safe self target extract_text extract_links
    use_cache st :
  well_cached st ->
  p_success (fst (fetch_page self target extract_text extract_links use_cache
                    st)) = true ->
  _is_safe_url target = true
  /\ p_url (fst (fetch_page self target extract_text extract_links use_cache
                   st)) = Some target
  /\ p_status (fst (fetch_page self target extract_text extract_links
                      use_cache st)) = Some 200
  /\ forall links,
       p_links (fst (fetch_page self target extract_text extract_links
                       use_cache st)) = Some links ->
       Forall (fun l => _is_safe_url (link_url l) = true) links.
Proof.
  intros Hwc Hok.
  destruct (fetch_page_success_cases _ _ _ _ _ _ Hok)
    as (He & Hsafe
        & [(data & Hl & Hrun) | (html & data & Hl & Hout & Hdata & Hrun)]);
    rewrite Hrun; simpl.
  - unfold page_lookup in Hl. destruct use_cache; [| discriminate].
    destruct (Hwc _ _ Hl) as (_ & Hurl & Hstatus & _ & Hlinks).
    rewrite Hurl, Hstatus. auto.
  - destruct (snapshot_sound _ _ _ _ _ Hsafe Hdata)
      as (_ & Hurl & Hstatus & _ & Hlinks).
    rewrite Hurl, Hstatus. auto.
Qed.

(** X12.  After any calls on a fresh browser, every success of
    [fetch_page], live or cached, is for a URL that [_is_safe_url]
    accepts, carries that URL and the status 200, and has only safe
    URLs among its links. *)
Theorem fetch_page_success_is_safe self calls target extract_text
    extract_links use_cache :
  let st := run_calls self calls new_store in
  let page :=
    fst (fetch_page self target extract_text extract_links use_cache st) in
  p_success page = true ->
  _is_safe_url target = true
  /\ p_url page = Some target
  /\ p_status page = Some 200
  /\ forall links,
       p_links page = Some links ->
       Forall (fun l => _is_safe_url (link_url l) = true) links.
Proof.
  intros st page. apply sound_cache_success_is_safe.
  apply run_calls_well_cached, new_store_well_cached.
Qed.

(** ** [collect_information] *)

Lemma search_gets_bound self query engine max_results use_cache st :
  (gets (trace (snd (search self query engine max_results use_cache st)))
   <= gets (trace st) + Z.to_nat (_max_retries self))%nat.
Proof.
  destruct (_enabled self) eqn:He;
    [| rewrite search_disabled by assumption; simpl; lia].
  destruct (fst (check_content_safety (_security self) query)) eqn:Hc;
    [| rewrite search_content_rejected by assumption; simpl; lia].
  destruct (cache_lookup use_cache (cache_key engine query) st) eqn:Hl.
  - rewrite (search_hit _ _ _ _ _ _ _ He Hc Hl). simpl. lia.
  - rewrite (search_live _ _ _ _ _ _ He Hc Hl). simpl.
    destruct (fetch_search_results_effect self (search_url query engine)
                max_results (effective_engine engine) st)
      as (_ & _ & added & Htr & Hg & _).
    rewrite Htr, gets_app. lia.
Qed.

(** X13.  [collect_information] with [0 <= max_pages] issues at most
    [_max_retries] GETs for the search and one for each of at most
    [max_pages] pages.  A success returns the query, the summary of
    what was collected, at most [max_pages] entries that each come from
    a result with a URL that [_is_safe_url] accepts, and as [sources]
    the URLs of these entries in order; a failure is a dictionary with
    [success: false]. *)
Theorem collect_information_bounds self query max_pages max_depth st :
  0 <= max_pages ->
  let out := collect_information self query max_pages max_depth st in
  (gets (trace (snd out))
   <= gets (trace st) + Z.to_nat (_max_retries self) + Z.to_nat max_pages)%nat
  /\ match fst out with
     | CollectFailure failure => s_success failure = false
     | CollectSuccess q summary sources detailed_info _ =>
         q = query
         /\ summary = _summarize_collected_info detailed_info query
         /\ sources = List.map source_url detailed_info
         /\ Z.of_nat (length detailed_info) <= max_pages
         /\ Forall
              (fun info =>
                 source_url info <> ""
                 /\ _is_safe_url (source_url info) = true)
              detailed_info
     end.
Proof.
  intros Hn. simpl. unfold collect_information.
  destruct (_enabled self); simpl; [| split; [lia | reflexivity]].
  pose proof (search_gets_bound self query "baidu" max_pages true st) as Hsg.
  destruct (search self query "baidu" max_pages true st)
    as [search_result st1].
  simpl in Hsg.
  destruct (s_success search_result) eqn:Hok; simpl; [| split; [lia | exact Hok]].
  destruct (s_results search_result) as [search_results |]; simpl;
    [| split; [lia | reflexivity]].
  pose proof (visit_results_collects self (slice_to max_pages search_results)
                [] st1) as (fresh & Heq & Hlen & Hall).
  pose proof (visit_results_gets self (slice_to max_pages search_results)
                [] st1) as Hg.
  pose proof (length_slice_to max_pages search_results Hn) as Hslice.
  destruct (visit_results _ _ _ _) as [collected_info st2].
  simpl in *. subst collected_info.
  split; [lia |].
  repeat split; [lia |].
  eapply Forall_impl; [exact Hall |].
  intros info (r & _ & Hurl & _ & _ & Hne & Hsafe). now rewrite Hurl.
Qed.


(** ** Searches that find nothing, seen from the aggregator *)

Lemma collect_information_live_empty self query max_pages max_depth st :
  _enabled self = true ->
  fst (check_content_safety (_security self) query) = true ->
  cache_lookup true (cache_key "baidu" query) st = None ->
  (forall added,
     barren "baidu" max_pages
       (http_get (trace st ++ added) (search_url query "baidu"))) ->
  let out := collect_information self query max_pages max_depth st in
  fst out
  = CollectSuccess query ("未找到关于 '" ++ query ++ "' 的相关信息。") [] []
      (strftime (trace (snd out)))
  /\ _search_cache (snd out) !! cache_key "baidu" query = Some []
  /\ gets (trace (snd out))
     = (gets (trace st) + Z.to_nat (_max_retries self))%nat.
Proof.
  intros He Hc Hmiss Hb. simpl. unfold collect_information. rewrite He. simpl.
  rewrite (search_live _ _ _ _ _ _ He Hc Hmiss). simpl.
  change (effective_engine "baidu") with "baidu".
  destruct (fetch_search_results_barren self (search_url query "baidu")
              max_pages "baidu" st Hb) as [Hr Hg].
  rewrite Hr, slice_to_nil. simpl.
  split; [reflexivity | split; [apply lookup_insert_eq | exact Hg]].
Qed.

Lemma collect_information_cached_empty self query max_pages max_depth st :
  _enabled self = true ->
  fst (check_content_safety (_security self) query) = true ->
  _search_cache st !! cache_key "baidu" query = Some [] ->
  collect_information self query max_pages max_depth st
  = (CollectSuccess query ("未找到关于 '" ++ query ++ "' 的相关信息。") [] []
       (strftime (trace st)), st).
Proof.
  intros He Hc Hentry. unfold collect_information. rewrite He. simpl.
  rewrite (search_hit _ _ _ _ _ _ [] He Hc) by exact Hentry.
  simpl. now rewrite slice_to_nil.
Qed.


Lemma sum_Z_zero {A} (f : A -> Z) (l : list A) :
  Forall (fun x => f x = 0) l -> sum_Z (List.map f l) = 0.
Proof.
  induction 1 as [| x l Hx _ IH]; [reflexivity |].
  change (f x + sum_Z (List.map f l) = 0). rewrite Hx, IH. reflexivity.
Qed.

(** Once the empty result is cached, every further round is served from
    the cache: it succeeds with no entries and adds only its pause. *)
Lemma research_loop_cached_empty self query num_iterations rounds :
  _enabled self = true ->
  fst (check_content_safety (_security self) query) = true ->
  forall all_results st,
    _search_cache st !! cache_key "baidu" query = Some [] ->
    exists more,
      fst (research_loop self query num_iterations rounds all_results query st)
      = (all_results ++ more)%list
      /\ length more = length rounds
      /\ Forall (fun r => Z.of_nat (length (c_detailed_info r)) = 0) more
      /\ gets (trace (snd (research_loop self query num_iterations rounds
                             all_results query st)))
         = gets (trace st).
Proof.
  intros He Hc.
  induction rounds as [| i rest IH]; intros all_results st Hentry; simpl.
  - exists []. rewrite app_nil_r. repeat split. constructor.
  - rewrite (collect_information_cached_empty _ _ _ _ _ He Hc Hentry). simpl.
    assert (Hq : (if i <? num_iterations - 1 then query else query) = query)
      by now destruct (i <? num_iterations - 1).
    rewrite Hq.
    match goal with
    | |- context [research_loop _ _ _ rest (all_results ++ [?r]) query ?s] =>
        destruct (IH (all_results ++ [r])%list s) as (more & Heq & Hlen & Hall & Hg);
        [exact Hentry |];
        exists (r :: more)
    end.
    split; [rewrite Heq, <- app_assoc; reflexivity |].
    split; [simpl; lia |].
    split; [constructor; [reflexivity | exact Hall] |].
    rewrite Hg. apply gets_sleep.
Qed.

(** X15.  [search_and_research] on a network where every attempt of the
    search fails or parses nothing, with nothing cached for the query:
    the first round caches the empty result and every later round is
    served from it, so the call issues [_max_retries] GETs in all and
    reports success with all [num_iterations] rounds completed and
    [total_sources] 0. *)
Theorem research_on_a_dead_network self query num_iterations st :
  _enabled self = true ->
  fst (check_content_safety (_security self) query) = true ->
  cache_lookup true (cache_key "baidu" query) st = None ->
  (forall added,
     barren "baidu" 3
       (http_get (trace st ++ added) (search_url query "baidu"))) ->
  0 < num_iterations ->
  let out := search_and_research self query num_iterations st in
  r_success (fst out) = true
  /\ r_iterations (fst out) = Some num_iterations
  /\ r_total_sources (fst out) = Some 0
  /\ gets (trace (snd out))
     = (gets (trace st) + Z.to_nat (_max_retries self))%nat.
Proof.
  intros He Hc Hmiss Hb Hn. simpl. unfold search_and_research.
  rewrite He. simpl. unfold range.
  destruct (Z.to_nat num_iterations) as [| m] eqn:Hm; [lia |].
  cbn [seq List.map research_loop].
  destruct (collect_information_live_empty self query 3 1 st He Hc Hmiss Hb)
    as (Hfirst & Hentry & Hg).
  destruct (collect_information self query 3 1 st) as [result st1].
  simpl in Hfirst, Hentry, Hg. subst result. simpl.
  match goal with
  | |- context [if ?c then query else query] =>
      replace (if c then query else query) with query by now destruct c
  end.
  match goal with
  | |- context [research_loop _ _ _ ?rs ?acc query ?s] =>
      destruct (research_loop_cached_empty self query num_iterations rs He Hc
                  acc s Hentry) as (more & Heq & Hlen & Hall & Hg');
      destruct (research_loop self query num_iterations rs acc query s)
        as [all_results st']
  end.
  rewrite gets_sleep in Hg'.
  simpl in Heq, Hg'. subst all_results. simpl.
  split; [reflexivity | split; [| split]].
  - f_equal. simpl. rewrite Hlen, length_map, length_seq. lia.
  - f_equal.
    change (sum_Z (List.map
                     (fun r => Z.of_nat (length (c_detailed_info r)))
                     (CollectSuccess query
                        ("未找到关于 '" ++ query ++ "' 的相关信息。") [] []
                        (strftime (trace st1)) :: more)) = 0).
    apply sum_Z_zero. constructor; [reflexivity | exact Hall].
  - lia.
Qed.


(** ** The summary *)

Lemma prefix_app_l sub s t :
  String.prefix sub s = true -> String.prefix sub (s ++ t) = true.
Proof.
  revert s. induction sub as [| a r IH]; intros s.
  - intros _. now destruct (s ++ t)%string.
  - destruct s as [| b s']; simpl; [discriminate |].
    destruct (ascii_dec a b); [apply IH | discriminate].
Qed.

Lemma prefix_self_app sub t : String.prefix sub (sub ++ t) = true.
Proof.
  induction sub as [| a r IH]; simpl; [now destruct t |].
  destruct (ascii_dec a a); [exact IH | contradiction].
Qed.

Lemma contains_prefix sub s :
  String.prefix sub s = true -> PyStr.contains sub s = true.
Proof. intros Hp. destruct s; cbn [PyStr.contains]; now rewrite Hp. Qed.

Lemma contains_app_l sub s t :
  PyStr.contains sub s = true -> PyStr.contains sub (s ++ t) = true.
Proof.
  induction s as [| c r IH]; cbn [PyStr.contains].
  - rewrite orb_false_r. intros Hp.
    apply contains_prefix. now apply (prefix_app_l sub "" t).
  - intros Hc. apply orb_true_iff in Hc as [Hp | Hr].
    + apply contains_prefix. now apply prefix_app_l.
    + change (PyStr.contains sub (String c (String.append r t)) = true).
      cbn [PyStr.contains]. rewrite (IH Hr). apply orb_true_r.
Qed.

Lemma contains_app_r sub s t :
  PyStr.contains sub t = true -> PyStr.contains sub (s ++ t) = true.
Proof.
  intros Hc. induction s as [| c r IH]; [exact Hc |].
  change (PyStr.contains sub (String c (String.append r t)) = true).
  cbn [PyStr.contains]. rewrite IH. apply orb_true_r.
Qed.

Lemma contains_middle sub s t : PyStr.contains sub (s ++ sub ++ t) = true.
Proof. apply contains_app_r, contains_prefix, prefix_self_app. Qed.

Lemma prefix_refl s : String.prefix s s = true.
Proof.
  induction s as [| a r IH]; simpl; [reflexivity |].
  destruct (ascii_dec a a); [exact IH | contradiction].
Qed.

Lemma contains_end sub s : PyStr.contains sub (s ++ sub) = true.
Proof. apply contains_app_r, contains_prefix, prefix_refl. Qed.

Lemma contains_concat sub sep parts part :
  part ∈ parts ->
  PyStr.contains sub part = true ->
  PyStr.contains sub (String.concat sep parts) = true.
Proof.
  intros Hin Hc. induction parts as [| x xs IH]; [inversion Hin |].
  apply elem_of_cons in Hin as [-> | Hin].
  - destruct xs as [| y ys]; simpl; [exact Hc | now apply contains_app_l].
  - destruct xs as [| y ys]; [inversion Hin |].
    change (String.concat sep (x :: y :: ys))
      with (x ++ sep ++ String.concat sep (y :: ys))%string.
    apply contains_app_r, contains_app_r. now apply IH.
Qed.

Lemma summary_entries_lines info info_list :
  info ∈ info_list ->
  forall first,
    exists i,
      forall line,
        line ∈ summary_entry i info -> line ∈ summary_entries first info_list.
Proof.
  induction 1 as [info rest | info other rest _ IH]; intros first.
  - exists first. intros line Hline. cbn [summary_entries].
    apply elem_of_app. now left.
  - destruct (IH (first + 1)) as (i & Hi). exists i.
    intros line Hline. cbn [summary_entries].
    apply elem_of_app. right. now apply Hi.
Qed.

(** X16.  The summary of [_summarize_collected_info] always names the
    query, in the message that nothing was found as well as in the
    report; the report also names the title and the URL of every
    collected source. *)
Theorem summary_names_query_and_sources info_list query :
  PyStr.contains query (_summarize_collected_info info_list query) = true
  /\ forall info,
       info ∈ info_list ->
       PyStr.contains (source_title info)
         (_summarize_collected_info info_list query) = true
       /\ PyStr.contains (source_url info)
            (_summarize_collected_info info_list query) = true.
Proof.
  unfold _summarize_collected_info.
  destruct info_list as [| first rest].
  - split; [apply contains_middle | intros info Hin; inversion Hin].
  - set (info_list := first :: rest). unfold PyStr.join.
    split.
    + apply (contains_concat _ _ _ ("**查询**: " ++ query)%string);
        [| apply contains_end].
      apply list_elem_of_further, list_elem_of_here.
    + intros info Hin.
      destruct (summary_entries_lines info info_list Hin 1) as (i & Hi).
      assert (Hpart : forall line,
                line ∈ summary_entry i info ->
                line ∈ ([ "## 信息收集摘要"; "**查询**: " ++ query;
                          "**来源数量**: "
                          ++ str_of_Z (Z.of_nat (length info_list));
                          ""; "### 主要信息来源:" ]%string
                        ++ summary_entries 1 info_list
                        ++ [ ""; "### 统计信息";
                             "- 总内容长度: "
                             ++ format_thousands
                                  (sum_Z (List.map content_length info_list))
                             ++ " 字符" ]%string)%list).
      { intros line Hline. apply elem_of_app. right.
        apply elem_of_app. left. now apply Hi. }
      split.
      * eapply contains_concat;
          [apply Hpart; unfold summary_entry; apply list_elem_of_here |].
        apply contains_app_r, contains_middle.
      * eapply contains_concat;
          [apply Hpart; unfold summary_entry;
           apply list_elem_of_further, list_elem_of_here |].
        apply contains_end.
Qed.


(** ** [check_command_safety] *)

(** X17.  [check_command_safety] allows a command exactly when no
    blacklisted text, lower-cased, occurs in the command, stripped of
    the whitespace around it and lower-cased, and, if there is a
    whitelist, that command starts with one of its texts, lower-cased,
    whatever [str.lower] makes of them: the blacklist wins over the
    whitelist, and the verdict does not depend on the order of the
    lists. *)
Theorem command_verdict rules command :
  let command_lower := PyStr.lower (PyStr.strip command) in
  fst (check_command_safety rules command) = true
  <-> (forall forbidden,
         forbidden ∈ _command_blacklist rules ->
         PyStr.contains (PyStr.lower forbidden) command_lower = false)
      /\ (_command_whitelist rules = []
          \/ exists allowed,
               allowed ∈ _command_whitelist rules
               /\ PyStr.startswith (PyStr.lower allowed) command_lower = true).
Proof.
  simpl. unfold check_command_safety.
  destruct (first_blocked (_command_blacklist rules)
              (PyStr.lower (PyStr.strip command))) as [forbidden |] eqn:Hf.
  - destruct (first_blocked_found _ _ _ Hf) as [Hin Hc]. simpl.
    split; [discriminate |].
    intros [Hnone _]. now rewrite (Hnone forbidden Hin) in Hc.
  - pose proof (first_blocked_none _ _ Hf) as Hnone.
    destruct (_command_whitelist rules) as [| a rest] eqn:Hw; simpl.
    + split; [auto | reflexivity].
    + destruct (PyStr.startswith (PyStr.lower a)
                  (PyStr.lower (PyStr.strip command))) eqn:Ha; simpl.
      * split; [| reflexivity]. intros _. split; [exact Hnone |].
        right. exists a. split; [apply list_elem_of_here | exact Ha].
      * destruct (existsb _ rest) eqn:Hex; simpl.
        -- split; [| reflexivity]. intros _. split; [exact Hnone |].
           right. apply existsb_exists in Hex as (x & Hx & Hsx).
           exists x. split; [| exact Hsx].
           apply list_elem_of_further. now apply list_elem_of_In.
        -- split; [discriminate |].
           intros [_ [Hempty | (x & Hx & Hsx)]]; [discriminate |].
           apply elem_of_cons in Hx as [-> | Hx]; [congruence |].
           assert (existsb
                     (fun allowed =>
                        PyStr.startswith (PyStr.lower allowed)
                          (PyStr.lower (PyStr.strip command))) rest = true).
           { apply existsb_exists. exists x.
             split; [now apply list_elem_of_In | exact Hsx]. }
           congruence.
Qed.

(** ** [ConfigLoader] *)

Lemma split_on_no_sep c s :
  PyStr.has_char c s = false -> Reference.split_on c s = [s].
Proof.
  induction s as [| d r IH]; simpl; [reflexivity |].
  intros Hc. apply orb_false_elim in Hc as [Hcd Hr].
  rewrite Hcd, (IH Hr). reflexivity.
Qed.

Lemma split_on_app c k rest :
  PyStr.has_char c k = false ->
  Reference.split_on c (k ++ String c rest) = k :: Reference.split_on c rest.
Proof.
  induction k as [| d r IH]; simpl.
  - intros _. now rewrite Ascii.eqb_refl.
  - intros Hc. apply orb_false_elim in Hc as [Hcd Hr].
    rewrite Hcd, (IH Hr). reflexivity.
Qed.

Lemma split_on_nonempty c s : Reference.split_on c s <> [].
Proof.
  destruct s as [| d r]; simpl; [discriminate |].
  destruct (Ascii.eqb c d); [discriminate |].
  destruct (Reference.split_on c r); discriminate.
Qed.

(** X18.  [ConfigLoader.get] never fails: on a configuration that is no
    dictionary it returns the default; a key without a dot is looked up
    in the dictionary, the default standing in for a missing key; and a
    dotted key is followed one part at a time, so that
    [get("a.rest")] is [get("rest")] in the value of [a], and the
    default when [a] is missing. *)
Theorem config_get_follows_the_path key rest items config default :
  ((forall its, config <> JObject its) ->
   config_get config key default = default)
  /\ (PyStr.has_char "." key = false ->
      config_get (JObject items) key default
      = match dict_get key items with
        | Some value => value
        | None => default
        end)
  /\ (PyStr.has_char "." key = false ->
      config_get (JObject items) (key ++ "." ++ rest) default
      = match dict_get key items with
        | Some value => config_get value rest default
        | None => default
        end).
Proof.
  unfold config_get, split_key. repeat split.
  - intros Hno.
    destruct (Reference.split_on "." key) as [| k ks] eqn:Hs;
      [now apply split_on_nonempty in Hs |].
    simpl. destruct config; try reflexivity. now destruct (Hno items0).
  - intros Hdot. rewrite (split_on_no_sep _ _ Hdot). simpl.
    now destruct (dict_get key items).
  - intros Hdot.
    change (key ++ "." ++ rest)%string with (key ++ String "." rest)%string.
    rewrite (split_on_app _ _ _ Hdot). simpl.
    now destruct (dict_get key items).
Qed.

Lemma dict_get_set_eq {A} key (v : A) d : dict_get key (dict_set key v d) = Some v.
Proof.
  induction d as [| [k x] rest IH]; simpl.
  - now rewrite String.eqb_refl.
  - destruct (String.eqb k key) eqn:Hk; simpl; now rewrite Hk.
Qed.

Lemma dict_get_set_ne {A} key key' (v : A) d :
  key' <> key -> dict_get key' (dict_set key v d) = dict_get key' d.
Proof.
  intros Hne. induction d as [| [k x] rest IH]; simpl.
  - destruct (String.eqb key key') eqn:Hk; [| reflexivity].
    apply String.eqb_eq in Hk. congruence.
  - destruct (String.eqb k key) eqn:Hk; simpl.
    + apply String.eqb_eq in Hk. subst k.
      destruct (String.eqb key key') eqn:Hk'; [| reflexivity].
      apply String.eqb_eq in Hk'. congruence.
    + now rewrite IH.
Qed.

Lemma set_loop_then_get keys last_key value :
  forall config config',
    set_loop keys last_key value config = Some config' ->
    get_loop (keys ++ [last_key]) config' = Some value
    /\ forall k ks,
         Some k <> head (keys ++ [last_key]) ->
         get_loop (k :: ks) config' = get_loop (k :: ks) config.
Proof.
  induction keys as [| key rest IH]; intros config config'; simpl.
  - destruct config; try discriminate. intros [= <-]. simpl.
    rewrite dict_get_set_eq. split; [reflexivity |].
    intros k ks Hk. rewrite dict_get_set_ne; [reflexivity | congruence].
  - destruct config; try discriminate.
    destruct (set_loop rest last_key value
                (default (JObject []) (dict_get key items)))
      as [child' |] eqn:Hchild; [| discriminate].
    intros [= <-]. simpl. rewrite dict_get_set_eq.
    destruct (IH _ _ Hchild) as [Hget _].
    split; [exact Hget |].
    intros k ks Hk. rewrite dict_get_set_ne; [reflexivity | congruence].
Qed.

(** X19.  What [ConfigLoader.set] stores, [ConfigLoader.get] returns:
    after [set(key, value)] has gone through, [get(key)] is [value]
    whatever the default, the verdict returned is that of
    [save_config] on the new configuration, and every key whose first
    part differs from that of [key] reads as before. *)
Theorem config_set_then_get save_config config key value ok config' :
  config_set save_config config key value = Saved ok config' ->
  save_config config' = Some ok
  /\ (forall default, config_get config' key default = value)
  /\ (forall other default,
        head (split_key other) <> head (split_key key) ->
        config_get config' other default = config_get config other default).
Proof.
  unfold config_set, config_get.
  destruct (set_loop (removelast (split_key key))
              (List.last (split_key key) "") value config)
    as [new |] eqn:Hset; [| discriminate].
  destruct (save_config new) as [verdict |] eqn:Hsave; [| discriminate].
  intros [= <- <-].
  destruct (set_loop_then_get _ _ _ _ _ Hset) as [Hget Hframe].
  rewrite <- app_removelast_last in Hget, Hframe
    by apply split_on_nonempty.
  split; [exact Hsave | split].
  - intros default. now rewrite Hget.
  - intros other default Hother.
    destruct (split_key other) as [| k ks] eqn:Hs;
      [now apply split_on_nonempty in Hs |].
    rewrite Hframe; [reflexivity |]. simpl in Hother. congruence.
Qed.


(** ** The caller [auto_search_and_execute] *)

(** [search] reports a failure only at one of its two gates, before any
    effect. *)
Lemma search_failure_is_a_gate self query engine max_results use_cache st :
  s_success (fst (search self query engine max_results use_cache st)) = false ->
  (_enabled self = false
   \/ fst (check_content_safety (_security self) query) = false)
  /\ snd (search self query engine max_results use_cache st) = st.
Proof.
  destruct (_enabled self) eqn:He;
    [| rewrite search_disabled by assumption; auto].
  destruct (fst (check_content_safety (_security self) query)) eqn:Hc;
    [| rewrite search_content_rejected by assumption; auto].
  rewrite search_past_gates_succeeds by assumption. discriminate.
Qed.

Lemma fetch_page_success_cached self target extract_text extract_links
    use_cache st :
  p_success (fst (fetch_page self target extract_text extract_links use_cache
                    st)) = true ->
  is_Some (_visited_urls
             (snd (fetch_page self target extract_text extract_links use_cache
                     st)) !! target).
Proof.
  intros Hok.
  destruct (fetch_page_success_cases _ _ _ _ _ _ Hok)
    as (_ & _
        & [(data & Hl & Hrun) | (html & data & Hl & Hout & Hdata & Hrun)]);
    rewrite Hrun; simpl.
  - unfold page_lookup in Hl. destruct use_cache; [eauto | discriminate].
  - rewrite lookup_insert_eq. eauto.
Qed.

Context {assistant : Assistant}.

(** X20.  [auto_search_and_execute] sends between one and three
    messages, all to the chat it was called for, and issues at most
    [_max_retries] GETs for its search and one for a page.  It returns
    the failure of [search] only when the browser is disabled or the
    query fails the content check, and then the browser's store is
    untouched; a solution comes with a source that [_is_safe_url]
    accepts and whose page is in the page cache afterwards. *)
Theorem auto_search_and_execute_effects self query chat_id st :
  let out := auto_search_and_execute self query chat_id st in
  (exists sent,
     outbox (snd out) = (outbox st ++ sent)%list
     /\ (1 <= length sent <= 3)%nat
     /\ Forall (fun message => fst message = chat_id) sent)
  /\ (gets (trace (web (snd out)))
      <= gets (trace (web st)) + Z.to_nat (_max_retries self) + 1)%nat
  /\ match fst out with
     | AutoSearchFailed failure =>
         s_success failure = false
         /\ web (snd out) = web st
         /\ (_enabled self = false
             \/ fst (check_content_safety (_security self) query) = false)
     | AutoSolved solution source_url =>
         _is_safe_url source_url = true
         /\ is_Some (_visited_urls (web (snd out)) !! source_url)
     | AutoNotFound => True
     end.
Proof.
  simpl. unfold auto_search_and_execute. simpl.
  pose proof (search_gets_bound self query "baidu" 3 true (web st)) as Hsg.
  pose proof (search_failure_is_a_gate self query "baidu" 3 true (web st))
    as Hgate.
  destruct (search self query "baidu" 3 true (web st))
    as [search_result web1].
  simpl in Hsg, Hgate.
  set (m1 := (chat_id, "正在网上搜索解决方案...")).
  destruct (s_success search_result) eqn:Hok; simpl.
  2:{ destruct (Hgate eq_refl) as [Hwhy ->].
      split; [exists [m1]; repeat split; simpl; try lia; repeat constructor |].
      split; [lia | auto]. }
  destruct (default [] (s_results search_result)) as [| first_result others];
    simpl.
  { split; [exists [m1]; repeat split; simpl; try lia; repeat constructor |].
    split; [lia | exact I]. }
  set (m2 := (chat_id, ("正在获取解决方案: " ++ title first_result)%string)).
  pose proof (fetch_page_counts self (url first_result) true false true web1)
    as (Hfg & _).
  pose proof (fetch_page_success_cases self (url first_result) true false true
                web1) as Hcases.
  pose proof (fetch_page_success_cached self (url first_result) true false true
                web1) as Hcached.
  destruct (fetch_page self (url first_result) true false true web1)
    as [page_result web2].
  simpl in Hfg, Hcases, Hcached.
  destruct (p_success page_result) eqn:Hpage; simpl.
  2:{ split; [exists [m1; m2]; rewrite <- app_assoc; repeat split; simpl;
              try lia; repeat constructor |].
      split; [lia | exact I]. }
  destruct (chat_success _) eqn:Hchat; simpl.
  - split.
    + eexists [m1; m2; _]. rewrite <- !app_assoc.
      repeat split; simpl; try lia; repeat constructor.
    + split; [lia |]. split; [| now apply Hcached].
      now destruct (Hcases eq_refl) as (_ & Hsafe & _).
  - split; [exists [m1; m2]; rewrite <- app_assoc; repeat split; simpl;
            try lia; repeat constructor |].
    split; [lia | exact I].
Qed.



(** ** A search that finds results at once *)

Lemma slice_to_all {A} (n : Z) (l : list A) :
  Z.of_nat (length l) <= n -> slice_to n l = l.
Proof.
  intros Hlen. unfold slice_to.
  destruct (0 <=? n) eqn:Hn; [| apply Z.leb_gt in Hn; lia].
  apply take_ge. lia.
Qed.

(** X22.  When the first attempt of a search that is not served from
    the cache gets a 200 page on which the engine's parser finds
    results, the search stops there: it has issued one GET and taken no
    pause, and it returns and caches exactly the results that the
    parser found, none cut off. *)
Theorem productive_first_attempt self query engine max_results use_cache st
    html :
  _enabled self = true ->
  fst (check_content_safety (_security self) query) = true ->
  cache_lookup use_cache (cache_key engine query) st = None ->
  0 < _max_retries self ->
  0 <= max_results ->
  http_get (trace st) (search_url query engine) = Response 200 html ->
  parse_results (effective_engine engine) (BeautifulSoup html) max_results
  <> [] ->
  search self query engine max_results use_cache st
  = (live_response query engine
       (parse_results (effective_engine engine) (BeautifulSoup html)
          max_results),
     cache_search (cache_key engine query)
       (parse_results (effective_engine engine) (BeautifulSoup html)
          max_results)
       (emit (Get (search_url query engine)) st)).
Proof.
  intros He Hc Hmiss Hr Hn Hout Hfound.
  rewrite (search_live _ _ _ _ _ _ He Hc Hmiss).
  assert (Hrun :
    _fetch_search_results self (search_url query engine) max_results
      (effective_engine engine) st
    = (parse_results (effective_engine engine) (BeautifulSoup html)
         max_results,
       emit (Get (search_url query engine)) st)).
  { unfold _fetch_search_results, range.
    destruct (Z.to_nat (_max_retries self)) as [| m] eqn:Hm; [lia |].
    cbn [seq List.map fetch_loop].
    unfold attempt_try, session_get. rewrite Hout. simpl.
    destruct (parse_results (effective_engine engine) (BeautifulSoup html)
                max_results) as [| r rs] eqn:Hp; [contradiction |].
    rewrite slice_to_all; [reflexivity |].
    rewrite <- Hp. now apply parse_results_length. }
  now rewrite Hrun.
Qed.


(** ** Text extraction and the links *)

Lemma node_forest_ind (P : node -> Prop) :
  (forall s, P (NavigableString s)) ->
  (forall name attrs contents,
     Forall P contents -> P (Tag name attrs contents)) ->
  forall n, P n.
Proof.
  intros Hs Ht. fix IH 1. intros [s | name attrs contents].
  - apply Hs.
  - apply Ht. induction contents as [| c cs IHcs]; constructor.
    + apply IH.
    + exact IHcs.
Qed.

(** The [href] values of the anchors among some tags, in order. *)
Lemma anchors_after_decompose names n :
  forall parents parents',
    sublist
      (List.map href_of
         (List.filter
            (fun e => String.eqb (el_name e) "a"
                      && bool_decide (is_Some (get_attr "href" (el_attrs e))))
            (flat_map (node_elements parents') (decompose names n))))
      (List.map href_of
         (List.filter
            (fun e => String.eqb (el_name e) "a"
                      && bool_decide (is_Some (get_attr "href" (el_attrs e))))
            (node_elements parents n))).
Proof.
  induction n as [s | name attrs contents IH] using node_forest_ind;
    intros parents parents'.
  - simpl. constructor.
  - cbn [decompose]. destruct (bool_decide (name ∈ names)).
    + simpl flat_map at 1. apply sublist_nil_l.
    + cbn [flat_map node_elements]. rewrite app_nil_r.
      cbn [List.filter el_name el_attrs].
      assert (Hrest :
        sublist
          (List.map href_of
             (List.filter
                (fun e => String.eqb (el_name e) "a"
                          && bool_decide
                               (is_Some (get_attr "href" (el_attrs e))))
                (flat_map (node_elements ((name, attrs) :: parents'))
                   (flat_map (decompose names) contents))))
          (List.map href_of
             (List.filter
                (fun e => String.eqb (el_name e) "a"
                          && bool_decide
                               (is_Some (get_attr "href" (el_attrs e))))
                (flat_map (node_elements ((name, attrs) :: parents))
                   contents)))).
      { induction IH as [| c cs Hc _ IHcs]; [constructor |].
        cbn [flat_map].
        rewrite flat_map_app, !List.filter_app, !List.map_app.
        apply sublist_app; [apply Hc | exact IHcs]. }
      destruct (String.eqb name "a"
                && bool_decide (is_Some (get_attr "href" attrs)));
        cbn [List.map]; [now apply sublist_skip | exact Hrest].
Qed.

(** The link loop on fewer anchors: where it resolved every anchor of a
    list, it resolves those of a list with some of their [href] values,
    and finds some of the same URLs. *)
Lemma link_loop_on_fewer_anchors base hrefs' hrefs :
  sublist hrefs' hrefs ->
  forall anchors' anchors links,
    hrefs' = List.map href_of anchors' ->
    hrefs = List.map href_of anchors ->
    extract_links_loop base anchors = Ok links ->
    exists links',
      extract_links_loop base anchors' = Ok links'
      /\ sublist (List.map link_url links') (List.map link_url links).
Proof.
  induction 1 as [| x l1 l2 _ IH | x l1 l2 _ IH];
    intros anchors' anchors links Heq' Heq Hloop.
  - destruct anchors'; [| discriminate]. exists []. split; [reflexivity |].
    apply sublist_nil_l.
  - destruct anchors' as [| a' rest']; [discriminate |].
    destruct anchors as [| a rest]; [discriminate |].
    injection Heq' as Hx' Hl1. injection Heq as Hx Hl2.
    cbn [extract_links_loop] in Hloop |- *. rewrite <- Hx', Hx.
    destruct (urljoin base (href_of a)) as [full_url | e]; [| discriminate].
    destruct (extract_links_loop base rest) as [found | e] eqn:Hrest;
      [| discriminate].
    injection Hloop as <-.
    destruct (IH rest' rest found Hl1 Hl2 Hrest) as (found' & -> & Hsub).
    eexists. split; [reflexivity |].
    destruct (_is_safe_url full_url); simpl;
      [now apply sublist_skip | exact Hsub].
  - destruct anchors as [| a rest]; [discriminate |].
    injection Heq as Hx Hl2. cbn [extract_links_loop] in Hloop.
    destruct (urljoin base (href_of a)) as [full_url | e]; [| discriminate].
    destruct (extract_links_loop base rest) as [found | e] eqn:Hrest;
      [| discriminate].
    injection Hloop as <-.
    destruct (IH anchors' rest found Heq' Hl2 Hrest) as (found' & -> & Hsub).
    eexists. split; [reflexivity |].
    destruct (_is_safe_url full_url); simpl;
      [now apply sublist_cons | exact Hsub].
Qed.

(** X23.  Extracting the text can only lose links.  Whenever the link
    loop of a live fetch with [extract_text=False] comes through, no
    [href] of the page making [urljoin] raise, so does that of a fetch
    of the same page with [extract_text=True], and the URLs of the
    links it returns are, in order, among those returned without the
    text. *)
Theorem text_extraction_only_loses_links target status html plain :
  snapshot target status html false true = Ok plain ->
  exists stripped with_text without_text,
    snapshot target status html true true = Ok stripped
    /\ d_links stripped = Some with_text
    /\ d_links plain = Some without_text
    /\ sublist (List.map link_url with_text)
         (List.map link_url without_text).
Proof.
  intros Hplain.
  destruct (snapshot_ok _ _ _ _ _ _ Hplain)
    as (_ & _ & _ & _ & without_text & Hloop & Hlinks).
  assert (Hsub :
    sublist
      (List.map href_of
         (find_all_a_href
            (decompose_all ["script"; "style"; "nav"; "footer"; "header"]
               (BeautifulSoup html))))
      (List.map href_of (find_all_a_href (BeautifulSoup html)))).
  { unfold find_all_a_href, soup_elements, decompose_all.
    generalize (BeautifulSoup html). intros doc.
    induction doc as [| n rest IH]; [constructor |].
    cbn [flat_map].
    rewrite flat_map_app, !List.filter_app, !List.map_app.
    apply sublist_app; [apply anchors_after_decompose | exact IH]. }
  destruct (link_loop_on_fewer_anchors target _ _ Hsub _ _ _ eq_refl eq_refl
              Hloop) as (with_text & Hloop' & Hurls).
  unfold snapshot. rewrite Hloop'.
  eexists _, with_text, without_text.
  split; [reflexivity | split; [reflexivity | split; assumption]].
Qed.


(** ** The URLs that [_is_safe_url] accepts *)

(** X24.  [_is_safe_url] accepts exactly the URLs that [urlparse]
    splits into a scheme [http] or [https] and a network location that
    is not empty, whose host is none of the four local literals and, if
    it parses as an IP address, is neither private nor loopback nor
    link-local.  So a host that is an ordinary name is accepted without
    being resolved, and so is a URL with a port or user information and
    no host. *)
Theorem safe_url_accepted target :
  _is_safe_url target = true
  <-> exists parsed,
        urlparse target = Some parsed
        /\ scheme parsed ∈ ["http"; "https"]
        /\ netloc parsed <> ""
        /\ (hostname parsed ∉
              [Some "localhost"; Some "127.0.0.1"; Some "0.0.0.0"; Some "::1"])
        /\ forall host ip,
             hostname parsed = Some host ->
             ip_address host = Some ip ->
             is_private ip || is_loopback ip || is_link_local ip = false.
Proof.
  unfold _is_safe_url. split.
  - destruct (urlparse target) as [parsed |]; [| discriminate].
    destruct (String.eqb (scheme parsed) "" || String.eqb (netloc parsed) "")
      eqn:Hempty; [discriminate |].
    apply orb_false_elim in Hempty as [_ Hn]. apply String.eqb_neq in Hn.
    destruct (bool_decide (scheme parsed ∈ ["http"; "https"])) eqn:Hs;
      [| discriminate].
    apply bool_decide_eq_true_1 in Hs. cbn [negb].
    destruct (bool_decide (hostname parsed ∈ _)) eqn:Hh; [discriminate |].
    apply bool_decide_eq_false_1 in Hh.
    intros Hrest. exists parsed. repeat split; try assumption.
    intros host ip Hhost Hip. rewrite Hhost, Hip in Hrest.
    now destruct (is_private ip || is_loopback ip || is_link_local ip).
  - intros (parsed & Hp & Hs & Hn & Hh & Hip). rewrite Hp.
    assert (Hscheme : String.eqb (scheme parsed) "" = false).
    { apply String.eqb_neq. intros Heq. rewrite Heq in Hs.
      revert Hs. compute_done. }
    apply String.eqb_neq in Hn. rewrite Hscheme, Hn. cbn [orb].
    rewrite (bool_decide_eq_true_2 _ Hs). cbn [negb].
    rewrite (bool_decide_eq_false_2 _ Hh).
    destruct (hostname parsed) as [host |]; [| reflexivity].
    destruct (ip_address host) as [ip |] eqn:Hi; [| reflexivity].
    now rewrite (Hip host ip eq_refl Hi).
Qed.

End Properties.

(** * Examples: the theorems at work, and where the code departs *)

#[local] Existing Instance Reference.unicode.
#[local] Existing Instance Reference.url_library.
#[local] Existing Instance Demo.read_html.

(** C1: the theorem on unsafe URLs at [http://127.0.0.1/secret]. *)
Lemma unsafe_url_rejected_witness :
  urlparse "http://127.0.0.1/secret"
  = Some {| scheme := "http"; netloc := "127.0.0.1" |}
  /\ hostname {| scheme := "http"; netloc := "127.0.0.1" |} = Some "127.0.0.1"
  /\ (_is_safe_url "http://127.0.0.1/secret" = false
      /\ forall self extract_text extract_links use_cache st,
           p_success
             (fst (fetch_page (world := Demo.offline) self
                     "http://127.0.0.1/secret" extract_text extract_links
                     use_cache st)) = false
           /\ snd (fetch_page (world := Demo.offline) self
                     "http://127.0.0.1/secret" extract_text extract_links
                     use_cache st) = st).
Proof.
  split; [reflexivity | split; [reflexivity |]].
  apply (unsafe_url_rejected (world := Demo.offline)
           "http://127.0.0.1/secret"
           {| scheme := "http"; netloc := "127.0.0.1" |}).
  - reflexivity.
  - right. right. right. left. compute_done.
Defined.

(** C1, as stated, fails at [http://:80/]: the URL has a network
    location, [:80], and no host; [_is_safe_url] accepts it and
    [fetch_page] issues a GET for it. *)
Lemma hostless_url_accepted :
  urlparse "http://:80/" = Some {| scheme := "http"; netloc := ":80" |}
  /\ hostname {| scheme := "http"; netloc := ":80" |} = None
  /\ _is_safe_url "http://:80/" = true
  /\ trace (snd (fetch_page (world := Demo.offline) Demo.browser
                   "http://:80/" true false true new_store))
     = [Get "http://:80/"].
Proof. repeat split; reflexivity. Qed.

(** C2: the code at a search with no network.  All three attempts
    raise; [search] returns success with an empty results list and
    stores that list in the cache. *)
Lemma failed_search_reports_success :
  let out :=
    search (world := Demo.offline) Demo.browser "weather" "baidu" 10 true
      new_store in
  fst out
  = {| s_success := true; s_error := None; s_reason := None;
       s_results := Some []; s_query := Some "weather";
       s_engine := Some "baidu"; s_cached := None |}
  /\ _search_cache (snd out) !! "baidu:weather" = Some []
  /\ trace (snd out)
     = [ Get "https://www.baidu.com/s?wd=weather"; Sleep (inject_Z 1);
         Get "https://www.baidu.com/s?wd=weather"; Sleep (inject_Z 2);
         Get "https://www.baidu.com/s?wd=weather" ].
Proof. repeat split; vm_compute; reflexivity. Qed.

(** C3, as stated, fails on the shape: a live result has the keys
    [query] and [engine], the cached one that follows has neither. *)
Lemma cached_search_drops_keys :
  let first :=
    search (world := Demo.serving Demo.hits_html) Demo.browser "weather"
      "baidu" 10 true new_store in
  let second :=
    search (world := Demo.serving Demo.hits_html) Demo.browser "weather"
      "baidu" 10 true (snd first) in
  s_cached (fst first) = None
  /\ s_query (fst first) = Some "weather"
  /\ s_engine (fst first) = Some "baidu"
  /\ s_cached (fst second) = Some true
  /\ s_query (fst second) = None
  /\ s_engine (fst second) = None
  /\ search_keys (fst second) <> search_keys (fst first) ∪ {["cached"]}.
Proof. repeat split; try (vm_compute; reflexivity). compute_done. Qed.

(** C4: the code at a search served from the cache.  The first call
    asks for at most 5 results and gets 2; the second asks for at most 1
    and gets the 2 that were stored. *)
Lemma cached_search_exceeds_max_results :
  let first :=
    search (world := Demo.serving Demo.hits_html) Demo.browser "weather"
      "baidu" 5 true new_store in
  let second :=
    search (world := Demo.serving Demo.hits_html) Demo.browser "weather"
      "baidu" 1 true (snd first) in
  s_success (fst second) = true
  /\ s_cached (fst second) = Some true
  /\ option_map (@length SearchResult) (s_results (fst second)) = Some 2%nat.
Proof. repeat split; vm_compute; reflexivity. Qed.




(** C7: the code at a page served from the cache.  The first call asks
    for the text and not for the links; the second asks for the links
    and not for the text, and is given the text and no links. *)
Lemma cached_page_ignores_flags :
  let first :=
    fetch_page (world := Demo.serving Demo.home_html) Demo.browser
      Demo.home_url true false true new_store in
  let second :=
    fetch_page (world := Demo.serving Demo.home_html) Demo.browser
      Demo.home_url false true true (snd first) in
  p_success (fst second) = true
  /\ p_cached (fst second) = Some true
  /\ p_text (fst second) = Some ("Read" ++ nl ++ "more")
  /\ p_links (fst second) = None.
Proof. repeat split; vm_compute; reflexivity. Qed.

(** C8: the code at a page with a link inside [nav], fetched live with
    both flags set.  Both anchors of the page resolve to safe URLs;
    [links] has only the one outside [nav]: the other was removed from
    the document when the text was extracted. *)
Lemma text_extraction_loses_links :
  let page := fetch_page (world := Demo.serving Demo.home_html) Demo.browser
                Demo.home_url true true true new_store in
  List.map (fun a => urljoin Demo.home_url (href_of a))
    (find_all_a_href (BeautifulSoup Demo.home_html))
  = [Ok "https://example.com/about"; Ok "https://example.org/more"]
  /\ _is_safe_url "https://example.com/about" = true
  /\ _is_safe_url "https://example.org/more" = true
  /\ p_success (fst page) = true
  /\ p_cached (fst page) = None
  /\ p_links (fst page)
     = Some [ {| link_text := "more";
                 link_url := "https://example.org/more" |} ].
Proof. repeat split; vm_compute; reflexivity. Qed.

(** C9: the theorem on research rounds at two rounds over one result
    page. *)
Lemma research_rounds_witness :
  _enabled Demo.browser = true
  /\ let out :=
       search_and_research (world := Demo.serving Demo.hits_html)
         Demo.browser "weather" 2 new_store in
     exists results st_mid,
       completed_rounds (world := Demo.serving Demo.hits_html) Demo.browser
         "weather" new_store results st_mid
       /\ r_results (fst out) = Some results
       /\ r_iterations (fst out) = Some (Z.of_nat (length results))
       /\ r_total_sources (fst out)
          = Some (sum_Z (List.map
                           (fun r => Z.of_nat (length (c_detailed_info r)))
                           results))
       /\ ((snd out = st_mid /\ (length results <= Z.to_nat 2)%nat)
           \/ (exists failed,
                 collect_information (world := Demo.serving Demo.hits_html)
                   Demo.browser "weather" 3 1 st_mid = (failed, snd out)
                 /\ c_success failed = false
                 /\ (length results < Z.to_nat 2)%nat)).
Proof.
  split; [reflexivity |].
  apply (research_rounds (world := Demo.serving Demo.hits_html) Demo.browser
           "weather" 2 new_store).
  reflexivity.
Defined.



(** X1: the theorem on a disabled browser, at a search and a page fetch
    on a network that would answer. *)
Lemma disabled_browser_is_inert_witness :
  _enabled Fixtures.disabled_browser = false
  /\ (run_calls (world := Demo.serving Demo.hits_html)
        Fixtures.disabled_browser
        [CallSearch "weather" "baidu" 10 true;
         CallFetch Demo.home_url true true true] new_store = new_store
      /\ (forall query engine max_results use_cache,
            s_success
              (fst (search (world := Demo.serving Demo.hits_html)
                      Fixtures.disabled_browser query engine max_results
                      use_cache new_store)) = false)
      /\ (forall target extract_text extract_links use_cache,
            p_success
              (fst (fetch_page (world := Demo.serving Demo.hits_html)
                      Fixtures.disabled_browser target extract_text
                      extract_links use_cache new_store)) = false)
      /\ (forall query max_pages max_depth,
            c_success
              (fst (collect_information
                      (world := Demo.serving Demo.hits_html)
                      Fixtures.disabled_browser query max_pages max_depth
                      new_store)) = false)
      /\ (forall query num_iterations,
            r_success
              (fst (search_and_research
                      (world := Demo.serving Demo.hits_html)
                      Fixtures.disabled_browser query num_iterations
                      new_store)) = false)).
Proof.
  split; [reflexivity |].
  apply (disabled_browser_is_inert (world := Demo.serving Demo.hits_html)
           Fixtures.disabled_browser
           [CallSearch "weather" "baidu" 10 true;
            CallFetch Demo.home_url true true true] new_store).
  reflexivity.
Defined.

(** X3: the theorem on blocked queries, at a query that holds the
    blocked keyword in another case. *)
Lemma blocked_query_stops_at_the_gate_witness :
  _enabled Fixtures.filtering_browser = true
  /\ content_filter_enabled (_security Fixtures.filtering_browser) = true
  /\ "Casino" ∈ _blocked_keywords (_security Fixtures.filtering_browser)
  /\ PyStr.contains (PyStr.lower "Casino") (PyStr.lower "best CASINO odds")
     = true
  /\ let refusal :=
       search_failure "内容安全检查失败"
         (Some (snd (check_content_safety
                       (_security Fixtures.filtering_browser)
                       "best CASINO odds"))) in
     (forall engine max_results use_cache,
        search (world := Demo.serving Demo.hits_html)
          Fixtures.filtering_browser "best CASINO odds" engine max_results
          use_cache new_store = (refusal, new_store))
     /\ (forall max_pages max_depth,
           collect_information (world := Demo.serving Demo.hits_html)
             Fixtures.filtering_browser "best CASINO odds" max_pages
             max_depth new_store = (CollectFailure refusal, new_store))
     /\ (forall num_iterations,
           0 < num_iterations ->
           search_and_research (world := Demo.serving Demo.hits_html)
             Fixtures.filtering_browser "best CASINO odds" num_iterations
             new_store
           = ({| r_success := true; r_error := None;
                 r_original_query := Some "best CASINO odds";
                 r_iterations := Some 0; r_results := Some [];
                 r_total_sources := Some 0 |}, new_store)).
Proof.
  split; [reflexivity | split; [reflexivity |]].
  split; [apply list_elem_of_here | split; [reflexivity |]].
  apply (blocked_query_stops_at_the_gate
           (world := Demo.serving Demo.hits_html) Fixtures.filtering_browser
           "best CASINO odds" "Casino" new_store);
    [reflexivity | reflexivity | apply list_elem_of_here | reflexivity].
Defined.

(** X6: the bound on parsed results, at a Baidu page with two hits and
    a limit of one. *)
Lemma parse_results_bounded_witness :
  0 <= 1
  /\ Z.of_nat (length (parse_results "baidu" Demo.hits_doc 1)) <= 1.
Proof.
  split; [lia |].
  apply (parse_results_bounded "baidu" Demo.hits_doc 1). lia.
Defined.

(** X8: the theorem on cached pages, at a page fetched for its text and
    asked again for its links. *)
Lemma fetched_page_is_served_from_cache_witness :
  let first :=
    fetch_page (world := Demo.serving Demo.home_html) Demo.browser
      Demo.home_url true false true new_store in
  p_success (fst first) = true
  /\ let second :=
       fetch_page (world := Demo.serving Demo.home_html) Demo.browser
         Demo.home_url false true true (snd first) in
     snd second = snd first
     /\ p_success (fst second) = true
     /\ p_cached (fst second) = Some true
     /\ p_url (fst second) = p_url (fst first)
     /\ p_status (fst second) = p_status (fst first)
     /\ p_content_length (fst second) = p_content_length (fst first)
     /\ p_text (fst second) = p_text (fst first)
     /\ p_links (fst second) = p_links (fst first).
Proof.
  intros first. split; [vm_compute; reflexivity |].
  apply (fetched_page_is_served_from_cache
           (world := Demo.serving Demo.home_html) Demo.browser Demo.home_url
           true false true false true new_store).
  vm_compute; reflexivity.
Defined.

(** X12: the theorem on successful fetches, at a page fetched twice. *)
Lemma fetch_page_success_is_safe_witness :
  let st :=
    run_calls (world := Demo.serving Demo.home_html) Demo.browser
      [CallFetch Demo.home_url true true true] new_store in
  let page :=
    fst (fetch_page (world := Demo.serving Demo.home_html) Demo.browser
           Demo.home_url false true true st) in
  p_success page = true
  /\ _is_safe_url Demo.home_url = true
  /\ p_url page = Some Demo.home_url
  /\ p_status page = Some 200
  /\ forall links,
       p_links page = Some links ->
       Forall (fun l => _is_safe_url (link_url l) = true) links.
Proof.
  intros st page. split; [vm_compute; reflexivity |].
  apply (fetch_page_success_is_safe (world := Demo.serving Demo.home_html)
           Demo.browser [CallFetch Demo.home_url true true true]
           Demo.home_url false true true).
  vm_compute; reflexivity.
Defined.

(** X13: the bounds of [collect_information], at two pages over a result
    page with two hits. *)
Lemma collect_information_bounds_witness :
  0 <= 2
  /\ let out :=
       collect_information (world := Demo.serving Demo.hits_html)
         Demo.browser "weather" 2 1 new_store in
     (gets (trace (snd out))
      <= gets (trace new_store) + Z.to_nat (_max_retries Demo.browser)
         + Z.to_nat 2)%nat
     /\ match fst out with
        | CollectFailure failure => s_success failure = false
        | CollectSuccess q summary sources detailed_info _ =>
            q = "weather"
            /\ summary = _summarize_collected_info detailed_info "weather"
            /\ sources = List.map source_url detailed_info
            /\ Z.of_nat (length detailed_info) <= 2
            /\ Forall
                 (fun info =>
                    source_url info <> ""
                    /\ _is_safe_url (source_url info) = true)
                 detailed_info
        end.
Proof.
  split; [lia |].
  apply (collect_information_bounds (world := Demo.serving Demo.hits_html)
           Demo.browser "weather" 2 1 new_store).
  lia.
Defined.


(** X15: the theorem on research without a network, at two rounds. *)
Lemma research_on_a_dead_network_witness :
  _enabled Demo.browser = true
  /\ fst (check_content_safety (_security Demo.browser) "weather") = true
  /\ cache_lookup true (cache_key "baidu" "weather") new_store = None
  /\ 0 < 2
  /\ let out :=
       search_and_research (world := Demo.offline) Demo.browser "weather" 2
         new_store in
     r_success (fst out) = true
     /\ r_iterations (fst out) = Some 2
     /\ r_total_sources (fst out) = Some 0
     /\ gets (trace (snd out))
        = (gets (trace new_store) + Z.to_nat (_max_retries Demo.browser))%nat.
Proof.
  split; [reflexivity | split; [reflexivity | split; [reflexivity |]]].
  split; [lia |].
  apply (research_on_a_dead_network (world := Demo.offline) Demo.browser
           "weather" 2 new_store);
    [reflexivity | reflexivity | reflexivity | | lia].
  intros added. exact I.
Defined.

(** X19: the round trip of the configuration, at a key whose middle
    section does not exist yet. *)
Lemma config_set_then_get_witness :
  config_set Fixtures.writable Fixtures.settings
    "security.content_filter.enabled" (JBool true)
  = Saved true Fixtures.filtered_settings
  /\ (Fixtures.writable Fixtures.filtered_settings = Some true
      /\ (forall default,
            config_get Fixtures.filtered_settings
              "security.content_filter.enabled" default = JBool true)
      /\ (forall other default,
            head (split_key other)
            <> head (split_key "security.content_filter.enabled") ->
            config_get Fixtures.filtered_settings other default
            = config_get Fixtures.settings other default)).
Proof.
  split; [reflexivity |].
  apply (config_set_then_get Fixtures.writable Fixtures.settings
           "security.content_filter.enabled" (JBool true) true
           Fixtures.filtered_settings).
  reflexivity.
Defined.


(** X22: the theorem on a productive first attempt, at a Baidu page
    with two hits. *)
Lemma productive_first_attempt_witness :
  _enabled Demo.browser = true
  /\ fst (check_content_safety (_security Demo.browser) "weather") = true
  /\ cache_lookup true (cache_key "baidu" "weather") new_store = None
  /\ 0 < _max_retries Demo.browser
  /\ 0 <= 10
  /\ http_get (World := Demo.serving Demo.hits_html) (trace new_store)
       (search_url "weather" "baidu") = Response 200 Demo.hits_html
  /\ parse_results (effective_engine "baidu") (BeautifulSoup Demo.hits_html)
       10 <> []
  /\ search (world := Demo.serving Demo.hits_html) Demo.browser "weather"
       "baidu" 10 true new_store
     = (live_response "weather" "baidu"
          (parse_results (effective_engine "baidu")
             (BeautifulSoup Demo.hits_html) 10),
        cache_search (cache_key "baidu" "weather")
          (parse_results (effective_engine "baidu")
             (BeautifulSoup Demo.hits_html) 10)
          (emit (Get (search_url "weather" "baidu")) new_store)).
Proof.
  split; [reflexivity | split; [reflexivity | split; [reflexivity |]]].
  split; [reflexivity | split; [lia | split; [reflexivity |]]].
  split; [vm_compute; discriminate |].
  apply (productive_first_attempt (world := Demo.serving Demo.hits_html)
           Demo.browser "weather" "baidu" 10 true new_store Demo.hits_html);
    [reflexivity | reflexivity | reflexivity | reflexivity | lia
    | reflexivity | vm_compute; discriminate].
Defined.

(** X23: the theorem on lost links, at the page with a link inside
    [nav]. *)
Lemma text_extraction_only_loses_links_witness :
  snapshot Demo.home_url 200 Demo.home_html false true
  = Ok Fixtures.home_plain
  /\ exists stripped with_text without_text,
       snapshot Demo.home_url 200 Demo.home_html true true = Ok stripped
       /\ d_links stripped = Some with_text
       /\ d_links Fixtures.home_plain = Some without_text
       /\ sublist (List.map link_url with_text)
            (List.map link_url without_text).
Proof.
  split; [vm_compute; reflexivity |].
  apply (text_extraction_only_loses_links Demo.home_url 200 Demo.home_html
           Fixtures.home_plain).
  vm_compute; reflexivity.
Defined.
